(** * Near-Earth objects and close approaches: the entity model and the two loaders

    A shallow embedding of [models.py] (classes [NearEarthObject] and
    [CloseApproach]) and [extract.py] ([load_neos], [load_approaches]).

    - Python objects live in an object store ([heap]); a reference is an
      index into it.  A constructor call evaluates the body of [__init__]
      and, when that body does not raise, adds the object to the store.
    - Code that may raise runs in a state-and-exception monad [M]: the store
      is threaded through, an exception stops the computation and keeps the
      store as it was at the raise.
    - Strings are sequences of ASCII characters.  The built-in [float(str)]
      is modelled by its lexical grammar; the value of a finite literal is
      kept as the exact decimal it denotes (binary64 rounding and overflow
      are outside the model).
    - The rows of the tabular source are the dictionaries [csv.DictReader]
      yields, the columnar source is the document [json.load] returns, and
      every raw value is a string; opening and tokenizing the files is
      outside the model.
    - The helpers [cd_to_datetime] and [datetime_to_str] of [helpers.py] are
      parameters of the development. *)

From Stdlib Require Import ZArith NArith Ascii String List Bool Lia.
From stdpp Require Import base option list strings gmap.

Open Scope string_scope.

(** ** Exceptions and results *)

Inductive exn : Type :=
| KeyError (key : string)
| ValueError
| IndexError
| AttributeError.

Inductive result (A : Type) : Type :=
| Ok (a : A)
| Raise (e : exn).

Arguments Ok {A} a.
Arguments Raise {A} e.

Definition is_ok {A} (r : result A) : bool :=
  match r with Ok _ => true | Raise _ => false end.

(** ** The built-in [float] on strings *)

Module PyFloat.

(** A Python float as far as the program can tell them apart: the NaN
    sentinel, an infinity, or a finite number written
    [(-1)^negative * mantissa * 10^exp10]. *)
Inductive pyfloat : Type :=
| FNan
| FInf (negative : bool)
| FDec (negative : bool) (mantissa : N) (exp10 : Z).

(** [math.isnan] *)
Definition isnan (x : pyfloat) : bool :=
  match x with FNan => true | _ => false end.

Definition code (c : ascii) : N := N_of_ascii c.

(** ASCII white space as [float] strips it: tab, LF, VT, FF, CR, space. *)
Definition is_space (c : ascii) : bool :=
  ((9 <=? code c) && (code c <=? 13))%N || (code c =? 32)%N.

Definition is_digit (c : ascii) : bool :=
  ((48 <=? code c) && (code c <=? 57))%N.

Definition digit_val (c : ascii) : N := (code c - 48)%N.

Definition lower (c : ascii) : ascii :=
  if ((65 <=? code c) && (code c <=? 90))%N then ascii_of_N (code c + 32) else c.

Fixpoint lstrip (l : list ascii) : list ascii :=
  match l with
  | c :: l' => if is_space c then lstrip l' else l
  | [] => []
  end.

Definition strip (l : list ascii) : list ascii :=
  rev (lstrip (rev (lstrip l))).

(** An optional sign. *)
Definition sign (l : list ascii) : bool * list ascii :=
  match l with
  | "+"%char :: r => (false, r)
  | "-"%char :: r => (true, r)
  | _ => (false, l)
  end.

Definition word_is (w : string) (l : list ascii) : bool :=
  String.eqb (string_of_list_ascii (map lower l)) w.

(** digit (["_"] digit)*, after its first digit: [acc] is the value read so
    far and [cnt] the number of digits read. *)
Fixpoint digits_rest (acc : N) (cnt : nat) (l : list ascii) : N * nat * list ascii :=
  match l with
  | c :: l' =>
      if is_digit c then digits_rest (10 * acc + digit_val c)%N (S cnt) l'
      else if Ascii.eqb c "_" then
        match l' with
        | d :: l'' =>
            if is_digit d then digits_rest (10 * acc + digit_val d)%N (S cnt) l''
            else (acc, cnt, l)
        | [] => (acc, cnt, l)
        end
      else (acc, cnt, l)
  | [] => (acc, cnt, l)
  end.

Definition digitpart (acc : N) (l : list ascii) : option (N * nat * list ascii) :=
  match l with
  | c :: l' =>
      if is_digit c then Some (digits_rest (10 * acc + digit_val c)%N 1 l') else None
  | [] => None
  end.

(** [digitpart] "." digitpart | digitpart ["."]: the digits as one natural
    number, the count of digits after the point, and the rest. *)
Definition number (l : list ascii) : option (N * nat * list ascii) :=
  match digitpart 0 l with
  | Some (i, _, r) =>
      match r with
      | "."%char :: r' =>
          match digitpart i r' with
          | Some (m, k, r'') => Some (m, k, r'')
          | None => Some (i, 0, r')
          end
      | _ => Some (i, 0, r)
      end
  | None =>
      match l with
      | "."%char :: r' => digitpart 0 r'
      | _ => None
      end
  end.

(** ("e" | "E") [sign] digitpart, or nothing. *)
Definition exponent (l : list ascii) : option (Z * list ascii) :=
  match l with
  | c :: r =>
      if Ascii.eqb (lower c) "e" then
        let '(neg, r1) := sign r in
        match digitpart 0 r1 with
        | Some (e, _, r2) => Some (if neg then (- Z.of_N e)%Z else Z.of_N e, r2)
        | None => None
        end
      else Some (0%Z, l)
  | [] => Some (0%Z, l)
  end.

(** The text after white space and sign: a special word or a number that
    uses every character. *)
Definition absfloat (neg : bool) (l : list ascii) : option pyfloat :=
  if word_is "nan" l then Some FNan
  else if word_is "inf" l || word_is "infinity" l then Some (FInf neg)
  else
    match number l with
    | Some (m, k, r) =>
        match exponent r with
        | Some (e, []) => Some (FDec neg m (e - Z.of_nat k))
        | _ => None
        end
    | None => None
    end.

(** [float(s)] for a string [s]; a string outside the grammar raises
    [ValueError]. *)
Definition float (s : string) : result pyfloat :=
  let '(neg, l) := sign (strip (list_ascii_of_string s)) in
  match absfloat neg l with
  | Some x => Ok x
  | None => Raise ValueError
  end.

(** The spellings of NaN that [float] accepts. *)
Definition is_nan_literal (s : string) : bool :=
  word_is "nan" (snd (sign (strip (list_ascii_of_string s)))).

End PyFloat.

Import PyFloat.

(** ** Python values, the object store and the monad *)

(** [datetime.datetime] at minute precision. *)
Record datetime : Type := mkDatetime {
  year : nat; month : nat; day : nat; hour : nat; minute : nat
}.

(** The values a serialized mapping holds.  A [dict] keeps its insertion
    order. *)
#[warnings="-register-all"] Inductive value : Type :=
| VNone
| VStr (s : string)
| VFloat (x : pyfloat)
| VBool (b : bool)
| VDict (d : list (string * value)).

Abbreviation dict := (list (string * value)).

Definition keys (d : dict) : list string := map fst d.

(** References: an index into the store of its class. *)
Definition neo_ref := nat.
Definition approach_ref := nat.

Record NearEarthObject : Type := mkNearEarthObject {
  designation : string;
  name : option string;
  diameter : pyfloat;
  hazardous : bool;
  approaches : list approach_ref
}.

Record CloseApproach : Type := mkCloseApproach {
  _designation : string;
  time : datetime;
  distance : pyfloat;
  velocity : pyfloat;
  neo : option neo_ref
}.

(** The live objects of each class, in order of creation. *)
Record heap : Type := mkHeap {
  neo_objs : list NearEarthObject;
  approach_objs : list CloseApproach
}.

Definition empty_heap : heap := mkHeap [] [].

(** A computation reads and extends the store and either returns or raises;
    the store reached at a raise is kept. *)
Definition M (A : Type) : Type := heap -> heap * result A.

Definition ret {A} (a : A) : M A := fun h => (h, Ok a).

Definition raise {A} (e : exn) : M A := fun h => (h, Raise e).

Definition lift {A} (r : result A) : M A := fun h => (h, r).

Definition bind {A B} (m : M A) (k : A -> M B) : M B :=
  fun h =>
    match m h with
    | (h', Ok a) => k a h'
    | (h', Raise e) => (h', Raise e)
    end.

Definition rbind {A B} (r : result A) (k : A -> result B) : result B :=
  match r with
  | Ok a => k a
  | Raise e => Raise e
  end.

Declare Scope py_scope.
Delimit Scope py_scope with py.
Notation "x <- m ;; k" := (bind m (fun x => k))
  (at level 100, m at next level, right associativity) : py_scope.
Notation "'try' x := r 'in' k" := (rbind r (fun x => k))
  (at level 100, x name, r at next level, right associativity) : py_scope.
Open Scope py_scope.

Definition new_neo (o : NearEarthObject) : M neo_ref :=
  fun h => (mkHeap (neo_objs h ++ [o]) (approach_objs h), Ok (length (neo_objs h))).

Definition new_approach (c : CloseApproach) : M approach_ref :=
  fun h => (mkHeap (neo_objs h) (approach_objs h ++ [c]), Ok (length (approach_objs h))).

(** Reading through a reference.  References handed out by the constructors
    are always in range; a reference that is not is reported as an
    [AttributeError]. *)
Definition get_neo (r : neo_ref) : M NearEarthObject :=
  fun h =>
    match neo_objs h !! r with
    | Some o => (h, Ok o)
    | None => (h, Raise AttributeError)
    end.

Definition get_approach (r : approach_ref) : M CloseApproach :=
  fun h =>
    match approach_objs h !! r with
    | Some c => (h, Ok c)
    | None => (h, Raise AttributeError)
    end.

(** ** Operations of the built-in containers *)

(** [d[k]] on a dict: [KeyError] when the key is missing. *)
Definition dict_getitem (d : gmap string string) (k : string) : result string :=
  match d !! k with
  | Some v => Ok v
  | None => Raise (KeyError k)
  end.

(** [l.index(x)]: the first position of [x], [ValueError] when absent. *)
Fixpoint list_index (l : list string) (x : string) : result nat :=
  match l with
  | [] => Raise ValueError
  | y :: l' =>
      if String.eqb y x then Ok 0
      else try i := list_index l' x in Ok (S i)
  end.

(** [l[i]] for [i >= 0]: [IndexError] when out of range. *)
Definition list_getitem (l : list string) (i : nat) : result string :=
  match l !! i with
  | Some v => Ok v
  | None => Raise IndexError
  end.

(** ** models.py: NearEarthObject *)

(** The body of [NearEarthObject.__init__]: the attributes it sets on
    [self], or the exception it raises. *)
Definition NearEarthObject_init (designation name diameter hazardous : string)
  : result NearEarthObject :=
  let name' := if negb (String.eqb name "") then Some name else None in
  try diameter' := (if negb (String.eqb diameter "") then float diameter else float "nan") in
  let hazardous' := String.eqb hazardous "Y" in
  Ok (mkNearEarthObject designation name' diameter' hazardous' []).

(** The call [NearEarthObject(designation, name, diameter, hazardous)]. *)
Definition NearEarthObject_new (designation name diameter hazardous : string)
  : M neo_ref :=
  o <- lift (NearEarthObject_init designation name diameter hazardous) ;;
  new_neo o.

(** Truth value of an attribute that holds a string or [None]. *)
Definition truthy (s : option string) : bool :=
  match s with
  | None => false
  | Some s => negb (String.eqb s "")
  end.

(** The expression computed by the [fullname] property. *)
Definition fullname_of (o : NearEarthObject) : string :=
  if negb (truthy (name o)) then designation o
  else designation o ++ " (" ++ default "None" (name o) ++ ")".

(** Reading [self.fullname]. *)
Definition NearEarthObject_fullname (self : neo_ref) : M string :=
  o <- get_neo self ;;
  ret (fullname_of o).

Definition value_of_name (s : option string) : value :=
  match s with
  | Some s => VStr s
  | None => VNone
  end.

(** [NearEarthObject.serialize]. *)
Definition NearEarthObject_serialize (self : neo_ref) : M dict :=
  o <- get_neo self ;;
  ret [ ("designation", VStr (designation o));
        ("name", value_of_name (name o));
        ("diameter_km", VFloat (diameter o));
        ("potentially_hazardous", VBool (hazardous o)) ].

(** ** models.py: CloseApproach, and extract.py *)

Section Helpers.

(** [helpers.cd_to_datetime] and [helpers.datetime_to_str]; either may
    raise. *)
Variable cd_to_datetime : string -> result datetime.
Variable datetime_to_str : datetime -> result string.

(** The body of [CloseApproach.__init__]. *)
Definition CloseApproach_init (designation time distance velocity : string)
  : result CloseApproach :=
  try time' := cd_to_datetime time in
  try distance' := float distance in
  try velocity' := float velocity in
  Ok (mkCloseApproach designation time' distance' velocity' None).

(** The call [CloseApproach(designation, time, distance, velocity)]. *)
Definition CloseApproach_new (designation time distance velocity : string)
  : M approach_ref :=
  c <- lift (CloseApproach_init designation time distance velocity) ;;
  new_approach c.

(** The exception of a constructor call whose numeric field raises [e]:
    the time helper runs first, and its exception, if any, is the one
    seen. *)
Definition after_time (t : string) (e : exn) : exn :=
  match cd_to_datetime t with
  | Ok _ => e
  | Raise e' => e'
  end.

(** Reading [self.time_str]. *)
Definition CloseApproach_time_str (self : approach_ref) : M string :=
  c <- get_approach self ;;
  lift (datetime_to_str (time c)).

(** [self.neo.serialize()]: [None] has no attribute [serialize]. *)
Definition neo_serialize (r : option neo_ref) : M dict :=
  match r with
  | Some n => NearEarthObject_serialize n
  | None => raise AttributeError
  end.

(** [CloseApproach.serialize]: the four entries are evaluated in the order
    they are written. *)
Definition CloseApproach_serialize (self : approach_ref) : M dict :=
  time_str <- CloseApproach_time_str self ;;
  c <- get_approach self ;;
  n <- neo_serialize (neo c) ;;
  ret [ ("datetime_utc", VStr time_str);
        ("distance_au", VFloat (distance c));
        ("velocity_km_s", VFloat (velocity c));
        ("neo", VDict n) ].

(** *** extract.py *)

(** The attributes of the object a row gives: its four fields handed to
    [__init__]. *)
Definition record_of_row (row : gmap string string) : result NearEarthObject :=
  try pdes := dict_getitem row "pdes" in
  try name := dict_getitem row "name" in
  try diameter := dict_getitem row "diameter" in
  try pha := dict_getitem row "pha" in
  NearEarthObject_init pdes name diameter pha.

(** A record that constructs: it has the four fields, and its diameter is
    empty or parses. *)
Definition well_formed_row (row : gmap string string) : bool :=
  match row !! "pdes", row !! "name", row !! "diameter", row !! "pha" with
  | Some _, Some _, Some dia, Some _ => String.eqb dia "" || is_ok (float dia)
  | _, _, _, _ => false
  end.

(** One turn of the loop of [load_neos]: the four fields are read from the
    row, then the object is constructed. *)
Definition neo_of_row (row : gmap string string) : M neo_ref :=
  pdes <- lift (dict_getitem row "pdes") ;;
  name <- lift (dict_getitem row "name") ;;
  diameter <- lift (dict_getitem row "diameter") ;;
  pha <- lift (dict_getitem row "pha") ;;
  NearEarthObject_new pdes name diameter pha.

(** The loop [for row in reader: ...; neos.append(neo)], [neos] being the
    list built so far. *)
Fixpoint load_neos_loop (reader : list (gmap string string)) (neos : list neo_ref)
  : M (list neo_ref) :=
  match reader with
  | [] => ret neos
  | row :: reader' =>
      neo <- neo_of_row row ;;
      load_neos_loop reader' (neos ++ [neo])
  end.

(** [load_neos], given the rows that [csv.DictReader] yields for the file. *)
Definition load_neos (reader : list (gmap string string)) : M (list neo_ref) :=
  load_neos_loop reader [].

(** The document that [json.load] returns: its members [fields] and
    [data]. *)
Record file_data : Type := mkFileData {
  fields : list string;
  data : list (list string)
}.

(** The four positions looked up in the header. *)
Record indices : Type := mkIndices {
  designation_index : nat;
  time_index : nat;
  distance_index : nat;
  velocity_index : nat
}.

Definition resolve_indices (labels : list string) : result indices :=
  try designation_index := list_index labels "des" in
  try time_index := list_index labels "cd" in
  try distance_index := list_index labels "dist" in
  try velocity_index := list_index labels "v_rel" in
  Ok (mkIndices designation_index time_index distance_index velocity_index).

(** The attributes of the object a data row gives under the positions
    [ix]. *)
Definition approach_record_of_row (ix : indices) (ca_data : list string)
  : result CloseApproach :=
  try des := list_getitem ca_data (designation_index ix) in
  try cd := list_getitem ca_data (time_index ix) in
  try dist := list_getitem ca_data (distance_index ix) in
  try v_rel := list_getitem ca_data (velocity_index ix) in
  CloseApproach_init des cd dist v_rel.

(** A data row that constructs under the positions [ix]: it reaches the
    four positions, the helper accepts its time, and its distance and
    velocity parse. *)
Definition well_formed_data_row (ix : indices) (ca_data : list string) : bool :=
  match ca_data !! designation_index ix, ca_data !! time_index ix,
        ca_data !! distance_index ix, ca_data !! velocity_index ix with
  | Some _, Some t, Some dist, Some v =>
      is_ok (cd_to_datetime t) && is_ok (float dist) && is_ok (float v)
  | _, _, _, _ => false
  end.

(** One turn of the loop of [load_approaches]. *)
Definition approach_of_row (ix : indices) (ca_data : list string) : M approach_ref :=
  des <- lift (list_getitem ca_data (designation_index ix)) ;;
  cd <- lift (list_getitem ca_data (time_index ix)) ;;
  dist <- lift (list_getitem ca_data (distance_index ix)) ;;
  v_rel <- lift (list_getitem ca_data (velocity_index ix)) ;;
  CloseApproach_new des cd dist v_rel.

Fixpoint load_approaches_loop (ix : indices) (rows : list (list string))
    (cas : list approach_ref) : M (list approach_ref) :=
  match rows with
  | [] => ret cas
  | ca_data :: rows' =>
      cs <- approach_of_row ix ca_data ;;
      load_approaches_loop ix rows' (cas ++ [cs])
  end.

(** [load_approaches], given the document read from the file. *)
Definition load_approaches (f : file_data) : M (list approach_ref) :=
  ix <- lift (resolve_indices (fields f)) ;;
  load_approaches_loop ix (data f) [].

End Helpers.

(** The field names [load_approaches] looks up. *)
Definition required_fields : list string := ["des"; "cd"; "dist"; "v_rel"].

(** ** The time helpers *)

Module TimeHelper.

(** Modelled from the spec: [helpers.py] (functions [cd_to_datetime] and
    [datetime_to_str]) is not among the sources.  The first reads a calendar
    string of the fixed shape [YYYY-Mon-DD hh:mm]; the second writes
    [YYYY-MM-DD hh:mm] with zero-padded numbers.  [month_of] is the position
    of a short month name. *)
Definition month_of (a b c : ascii) : option nat :=
  let w := String a (String b (String c EmptyString)) in
  fst <$> list_find (fun m => String.eqb m w)
    ["Jan"; "Feb"; "Mar"; "Apr"; "May"; "Jun"; "Jul"; "Aug"; "Sep"; "Oct"; "Nov"; "Dec"].

Definition num (ds : list ascii) : option nat :=
  if forallb is_digit ds
  then Some (fold_left (fun n d => 10 * n + N.to_nat (digit_val d)) ds 0)
  else None.

(** Modelled from the spec: [helpers.cd_to_datetime], which is not among
    the sources; a string of any other shape raises [ValueError]. *)
Definition cd_to_datetime (calendar_date : string) : result datetime :=
  match list_ascii_of_string calendar_date with
  | [y1; y2; y3; y4; s1; m1; m2; m3; s2; d1; d2; s3; h1; h2; s4; n1; n2] =>
      match num [y1; y2; y3; y4], month_of m1 m2 m3, num [d1; d2], num [h1; h2], num [n1; n2] with
      | Some y, Some m, Some d, Some h, Some n =>
          if String.eqb (string_of_list_ascii [s1; s2; s3; s4]) "-- :"
             && Nat.leb 1 d && Nat.leb d 31 && Nat.ltb h 24 && Nat.ltb n 60
          then Ok (mkDatetime y (S m) d h n)
          else Raise ValueError
      | _, _, _, _, _ => Raise ValueError
      end
  | _ => Raise ValueError
  end.

Definition digit (n : nat) : ascii := ascii_of_nat (48 + n mod 10).

Definition two (n : nat) : string :=
  String (digit (n / 10)) (String (digit n) EmptyString).

Definition four (n : nat) : string := two (n / 100) ++ two n.

(** Modelled from the spec: [helpers.datetime_to_str], which is not among
    the sources. *)
Definition datetime_to_str (dt : datetime) : result string :=
  Ok (four (year dt) ++ "-" ++ two (month dt) ++ "-" ++ two (day dt)
        ++ " " ++ two (hour dt) ++ ":" ++ two (minute dt)).

End TimeHelper.

(** ** Notions used to state what the loaders do *)

(** What a loop that constructs one object per element leaves behind: the
    objects built before the first exception, and that exception if there is
    one. *)
Fixpoint built_before_raise {A} (rs : list (result A)) : list A * option exn :=
  match rs with
  | [] => ([], None)
  | Ok a :: rs' => let '(os, e) := built_before_raise rs' in (a :: os, e)
  | Raise e :: _ => ([], Some e)
  end.

(** The keys [load_neos] reads from a row, in the order it reads them. *)
Definition neo_fields : list string := ["pdes"; "name"; "diameter"; "pha"].

Definition first_missing (row : gmap string string) : option string :=
  find (fun k => match row !! k with None => true | Some _ => false end) neo_fields.

(** The part of a row that [load_neos] reads. *)
Definition row_fields (row : gmap string string)
  : option string * option string * option string * option string :=
  (row !! "pdes", row !! "name", row !! "diameter", row !! "pha").

(** The part of a data row that [load_approaches] reads under the positions
    [ix]. *)
Definition selected_values (ix : indices) (ca_data : list string)
  : option string * option string * option string * option string :=
  (ca_data !! designation_index ix, ca_data !! time_index ix,
   ca_data !! distance_index ix, ca_data !! velocity_index ix).

(** * Properties *)

(** ** The number parser *)

Lemma float_raises_ValueError s e : float s = Raise e -> e = ValueError.
Proof.
  unfold float. destruct (sign _) as [neg l].
  destruct (absfloat neg l); congruence.
Qed.

Lemma float_empty : float "" = Raise ValueError.
Proof. reflexivity. Qed.

Lemma absfloat_nan neg l x :
  absfloat neg l = Some x -> isnan x = word_is "nan" l.
Proof.
  unfold absfloat. destruct (word_is "nan" l).
  - intros [= <-]. reflexivity.
  - destruct (word_is "inf" l || word_is "infinity" l).
    + intros [= <-]. reflexivity.
    + destruct (number l) as [[[m k] r]|]; [|discriminate].
      destruct (exponent r) as [[e [|c r']]|]; [|discriminate..].
      intros [= <-]. reflexivity.
Qed.

(** [float] returns NaN exactly on the spellings of NaN. *)
Lemma float_nan s x : float s = Ok x -> isnan x = is_nan_literal s.
Proof.
  unfold float, is_nan_literal. destruct (sign _) as [neg l]. simpl.
  destruct (absfloat neg l) as [y|] eqn:E; [|discriminate].
  intros [= <-]. eauto using absfloat_nan.
Qed.

Lemma string_length_app (s1 s2 : string) :
  String.length (s1 ++ s2) = String.length s1 + String.length s2.
Proof. induction s1 as [|c s1 IH]; simpl; [reflexivity|]. rewrite <- IH. reflexivity. Qed.

Lemma string_app_neq (s t : string) : t <> "" -> s ++ t <> s.
Proof.
  intros Ht E. apply (f_equal String.length) in E.
  rewrite string_length_app in E. destruct t; [congruence|simpl in E; lia].
Qed.

(** ** NearEarthObject.__init__ *)

(** What [__init__] leaves in the attributes when it returns. *)
Lemma NearEarthObject_init_Ok des nm dia pha o :
  NearEarthObject_init des nm dia pha = Ok o ->
  designation o = des /\
  name o = (if String.eqb nm "" then None else Some nm) /\
  (if String.eqb dia "" then diameter o = FNan else float dia = Ok (diameter o)) /\
  hazardous o = String.eqb pha "Y" /\
  approaches o = [].
Proof.
  unfold NearEarthObject_init.
  destruct (String.eqb dia "") eqn:Ed; simpl.
  - intros [= <-]. simpl. destruct (String.eqb nm ""); auto.
  - destruct (float dia) as [x|e] eqn:Ef; simpl; [|discriminate].
    intros [= <-]. simpl. destruct (String.eqb nm ""); auto.
Qed.

(** C1, as stated, fails: the raw diameter ["nan"] is not empty, is accepted
    by the number parser and gives the NaN sentinel. *)
Lemma diameter_nan_nonempty_counterexample :
  exists o,
    NearEarthObject_init "2021 AA" "" "nan" "N" = Ok o /\
    ~ (isnan (diameter o) = true <-> "nan" = "").
Proof.
  eexists. split; [reflexivity|]. simpl. intros [H _].
  specialize (H eq_refl). discriminate.
Qed.

(** [__init__] returns whenever the diameter is empty or parses, whatever
    the other three arguments are. *)
Lemma NearEarthObject_init_returns des nm dia pha :
  dia = "" \/ is_ok (float dia) = true ->
  exists o, NearEarthObject_init des nm dia pha = Ok o.
Proof.
  intros Hd. unfold NearEarthObject_init, rbind.
  destruct (String.eqb_spec dia "") as [->|Hne]; simpl.
  - eexists. reflexivity.
  - destruct Hd as [?|Hd]; [contradiction|].
    destruct (float dia) as [x|e]; [eexists; reflexivity|discriminate].
Qed.

(** C1 (amended): a row whose raw diameter is empty or parses gives a
    NearEarthObject, and the diameter of the object built from a row is the
    NaN sentinel if and only if the raw diameter is empty or a spelling of
    NaN that the number parser accepts; an empty raw diameter always gives
    NaN, and a non-empty one that parses gives exactly the parsed value. *)
Theorem diameter_nan_iff_empty_or_nan_literal des nm dia pha :
  (dia = "" \/ is_ok (float dia) = true ->
   exists o,
     NearEarthObject_init des nm dia pha = Ok o /\
     (isnan (diameter o) = true <-> dia = "" \/ is_nan_literal dia = true) /\
     (dia = "" -> diameter o = FNan) /\
     (dia <> "" -> float dia = Ok (diameter o))) /\
  (forall o,
     NearEarthObject_init des nm dia pha = Ok o ->
     (isnan (diameter o) = true <-> dia = "" \/ is_nan_literal dia = true) /\
     (dia = "" -> diameter o = FNan) /\
     (dia <> "" -> float dia = Ok (diameter o))).
Proof.
  assert (Hall : forall o,
     NearEarthObject_init des nm dia pha = Ok o ->
     (isnan (diameter o) = true <-> dia = "" \/ is_nan_literal dia = true) /\
     (dia = "" -> diameter o = FNan) /\
     (dia <> "" -> float dia = Ok (diameter o))).
  { intros o H. apply NearEarthObject_init_Ok in H as (_ & _ & Hd & _).
    destruct (String.eqb_spec dia "") as [->|Hne].
    - rewrite Hd. simpl. intuition congruence.
    - pose proof (float_nan _ _ Hd) as Hn. rewrite Hn. intuition congruence. }
  split; [|exact Hall].
  intros Hd. destruct (NearEarthObject_init_returns des nm dia pha Hd) as [o Ho].
  exists o. split; [exact Ho|]. apply Hall, Ho.
Qed.

Lemma diameter_nan_iff_empty_or_nan_literal_witness :
  (exists o, NearEarthObject_init "2021 AA" "" "" "N" = Ok o /\
             diameter o = FNan /\ isnan (diameter o) = true) /\
  (exists o, NearEarthObject_init "433" "Eros" "16.84" "N" = Ok o /\
             float "16.84" = Ok (diameter o) /\ isnan (diameter o) <> true) /\
  (exists o, NearEarthObject_init "2021 AB" "" " NaN " "N" = Ok o /\
             isnan (diameter o) = true).
Proof.
  split; [|split].
  - destruct (proj1 (diameter_nan_iff_empty_or_nan_literal "2021 AA" "" "" "N")
                (or_introl eq_refl)) as (o & Ho & Hiff & Hempty & _).
    exists o. split; [exact Ho|]. split; [apply Hempty; reflexivity|].
    apply Hiff. left. reflexivity.
  - destruct (proj1 (diameter_nan_iff_empty_or_nan_literal "433" "Eros" "16.84" "N")
                (or_intror eq_refl)) as (o & Ho & Hiff & _ & Hparsed).
    exists o. split; [exact Ho|]. split; [apply Hparsed; discriminate|].
    intros Hn. apply Hiff in Hn as [Hn|Hn]; discriminate.
  - destruct (proj1 (diameter_nan_iff_empty_or_nan_literal "2021 AB" "" " NaN " "N")
                (or_intror eq_refl)) as (o & Ho & Hiff & _).
    exists o. split; [exact Ho|]. apply Hiff. right. reflexivity.
Defined.

(** C2: a row whose raw diameter is empty or parses gives a
    NearEarthObject, and the object built from a row is hazardous if and
    only if the raw [pha] field is exactly ["Y"]; every other raw value,
    the empty string included, gives [False]. *)
Theorem hazardous_iff_pha_is_Y des nm dia pha :
  (dia = "" \/ is_ok (float dia) = true ->
   exists o,
     NearEarthObject_init des nm dia pha = Ok o /\
     (hazardous o = true <-> pha = "Y") /\
     (pha <> "Y" -> hazardous o = false)) /\
  (forall o,
     NearEarthObject_init des nm dia pha = Ok o ->
     (hazardous o = true <-> pha = "Y") /\
     (pha <> "Y" -> hazardous o = false)).
Proof.
  assert (Hall : forall o,
     NearEarthObject_init des nm dia pha = Ok o ->
     (hazardous o = true <-> pha = "Y") /\
     (pha <> "Y" -> hazardous o = false)).
  { intros o H. apply NearEarthObject_init_Ok in H as (_ & _ & _ & -> & _).
    split.
    - apply String.eqb_eq.
    - apply String.eqb_neq. }
  split; [|exact Hall].
  intros Hd. destruct (NearEarthObject_init_returns des nm dia pha Hd) as [o Ho].
  exists o. split; [exact Ho|]. apply Hall, Ho.
Qed.

Lemma hazardous_iff_pha_is_Y_witness :
  (exists o, NearEarthObject_init "433" "Eros" "16.84" "Y" = Ok o /\ hazardous o = true) /\
  (exists o, NearEarthObject_init "433" "Eros" "16.84" "y" = Ok o /\ hazardous o = false) /\
  (exists o, NearEarthObject_init "2021 AA" "" "" "" = Ok o /\ hazardous o = false).
Proof.
  split; [|split].
  - destruct (proj1 (hazardous_iff_pha_is_Y "433" "Eros" "16.84" "Y") (or_intror eq_refl))
      as (o & Ho & Hiff & _).
    exists o. split; [exact Ho|]. apply Hiff. reflexivity.
  - destruct (proj1 (hazardous_iff_pha_is_Y "433" "Eros" "16.84" "y") (or_intror eq_refl))
      as (o & Ho & _ & Hother).
    exists o. split; [exact Ho|]. apply Hother. discriminate.
  - destruct (proj1 (hazardous_iff_pha_is_Y "2021 AA" "" "" "") (or_introl eq_refl))
      as (o & Ho & _ & Hother).
    exists o. split; [exact Ho|]. apply Hother. discriminate.
Defined.

(** C3: a row whose raw diameter is empty or parses gives a
    NearEarthObject whose designation is the raw designation; the name of
    the object built from a row is absent ([None]) if and only if the raw
    [name] field is the empty string, and is the raw name otherwise; its
    full name is the designation alone exactly when the name is absent, and
    ["<designation> (<name>)"] otherwise. *)
Theorem name_absent_iff_empty_and_fullname des nm dia pha :
  (dia = "" \/ is_ok (float dia) = true ->
   exists o,
     NearEarthObject_init des nm dia pha = Ok o /\
     designation o = des /\
     (name o = None <-> nm = "") /\
     (nm <> "" -> name o = Some nm) /\
     (fullname_of o = designation o <-> name o = None) /\
     (forall n, name o = Some n -> fullname_of o = designation o ++ " (" ++ n ++ ")")) /\
  (forall o,
     NearEarthObject_init des nm dia pha = Ok o ->
     designation o = des /\
     (name o = None <-> nm = "") /\
     (nm <> "" -> name o = Some nm) /\
     (fullname_of o = designation o <-> name o = None) /\
     (forall n, name o = Some n -> fullname_of o = designation o ++ " (" ++ n ++ ")")).
Proof.
  assert (Hall : forall o,
     NearEarthObject_init des nm dia pha = Ok o ->
     designation o = des /\
     (name o = None <-> nm = "") /\
     (nm <> "" -> name o = Some nm) /\
     (fullname_of o = designation o <-> name o = None) /\
     (forall n, name o = Some n -> fullname_of o = designation o ++ " (" ++ n ++ ")")).
  { intros o H. apply NearEarthObject_init_Ok in H as (Hdes & Hn & _).
    split; [exact Hdes|].
    unfold fullname_of. rewrite Hn.
    destruct (String.eqb_spec nm "") as [->|Hne]; simpl.
    - intuition congruence.
    - apply String.eqb_neq in Hne as Hb. rewrite Hb. simpl.
      split; [intuition congruence|]. split; [reflexivity|]. split.
      + split; [|discriminate]. intros E. exfalso.
        revert E. apply string_app_neq. discriminate.
      + intros n [= <-]. reflexivity. }
  split; [|exact Hall].
  intros Hd. destruct (NearEarthObject_init_returns des nm dia pha Hd) as [o Ho].
  exists o. split; [exact Ho|]. apply Hall, Ho.
Qed.

Lemma name_absent_iff_empty_and_fullname_witness :
  (exists o, NearEarthObject_init "2021 AA" "" "" "N" = Ok o /\
             name o = None /\ fullname_of o = "2021 AA") /\
  (exists o, NearEarthObject_init "433" "Eros" "16.84" "N" = Ok o /\
             name o = Some "Eros" /\ fullname_of o = "433 (Eros)").
Proof.
  split.
  - destruct (proj1 (name_absent_iff_empty_and_fullname "2021 AA" "" "" "N")
                (or_introl eq_refl)) as (o & Ho & Hdes & Hnone & _ & Hfull & _).
    exists o. split; [exact Ho|].
    assert (Hn : name o = None) by (apply Hnone; reflexivity).
    split; [exact Hn|]. rewrite <- Hdes. apply Hfull. exact Hn.
  - destruct (proj1 (name_absent_iff_empty_and_fullname "433" "Eros" "16.84" "N")
                (or_intror eq_refl)) as (o & Ho & Hdes & _ & Hsome & _ & Hfull).
    exists o. split; [exact Ho|].
    assert (Hn : name o = Some "Eros") by (apply Hsome; discriminate).
    split; [exact Hn|]. rewrite (Hfull _ Hn), Hdes. reflexivity.
Defined.

(** ** Reading an object: fullname and serialize *)

(** C10: on any store, serializing a NearEarthObject or reading its
    [fullname] returns with the store (hence every attribute of the object)
    unchanged; the mapping has exactly the keys [designation], [name],
    [diameter_km], [potentially_hazardous], holding the current attributes
    (an absent name as [None], the diameter as it is, NaN included). *)
Theorem neo_serialize_and_fullname_read_only h self o :
  neo_objs h !! self = Some o ->
  (exists d,
     NearEarthObject_serialize self h = (h, Ok d) /\
     keys d = ["designation"; "name"; "diameter_km"; "potentially_hazardous"] /\
     d = [ ("designation", VStr (designation o));
           ("name", match name o with Some s => VStr s | None => VNone end);
           ("diameter_km", VFloat (diameter o));
           ("potentially_hazardous", VBool (hazardous o)) ]) /\
  NearEarthObject_fullname self h = (h, Ok (fullname_of o)).
Proof.
  intros H.
  unfold NearEarthObject_serialize, NearEarthObject_fullname, bind, get_neo, ret.
  rewrite H. split; [|reflexivity].
  eexists. split; [reflexivity|]. split; reflexivity.
Qed.

Lemma neo_serialize_and_fullname_read_only_witness :
  let o := mkNearEarthObject "2021 AA" None FNan true [] in
  let h := mkHeap [o] [] in
  (exists d,
     NearEarthObject_serialize 0 h = (h, Ok d) /\
     keys d = ["designation"; "name"; "diameter_km"; "potentially_hazardous"] /\
     d = [ ("designation", VStr "2021 AA"); ("name", VNone);
           ("diameter_km", VFloat FNan); ("potentially_hazardous", VBool true) ]) /\
  NearEarthObject_fullname 0 h = (h, Ok "2021 AA").
Proof.
  intros o h. exact (neo_serialize_and_fullname_read_only h 0 o eq_refl).
Defined.

Section HelperProperties.

Variable cd_to_datetime : string -> result datetime.
Variable datetime_to_str : datetime -> result string.

(** C4 (amended): serializing a CloseApproach whose [neo] is absent returns
    no mapping: once the time is formatted it raises [AttributeError], and
    the store is unchanged.  A mapping, with the nested serialization of
    the NEO, is returned only for a linked approach. *)
Theorem approach_serialize_needs_linked_neo h self c ts :
  approach_objs h !! self = Some c ->
  datetime_to_str (time c) = Ok ts ->
  match neo c with
  | None => CloseApproach_serialize datetime_to_str self h = (h, Raise AttributeError)
  | Some n =>
      forall o, neo_objs h !! n = Some o ->
        CloseApproach_serialize datetime_to_str self h =
          (h, Ok [ ("datetime_utc", VStr ts);
                   ("distance_au", VFloat (distance c));
                   ("velocity_km_s", VFloat (velocity c));
                   ("neo", VDict [ ("designation", VStr (designation o));
                                   ("name", value_of_name (name o));
                                   ("diameter_km", VFloat (diameter o));
                                   ("potentially_hazardous", VBool (hazardous o)) ]) ])
  end.
Proof.
  intros Hc Ht.
  unfold CloseApproach_serialize, CloseApproach_time_str, bind, get_approach, lift.
  rewrite Hc, Ht, Hc.
  destruct (neo c) as [n|]; simpl; [|reflexivity].
  intros o Ho. unfold NearEarthObject_serialize, bind, get_neo, ret.
  rewrite Ho. reflexivity.
Qed.

(** A constructor call whose [__init__] raises adds nothing to the store. *)
Lemma NearEarthObject_new_result des nm dia pha h :
  NearEarthObject_new des nm dia pha h =
    match NearEarthObject_init des nm dia pha with
    | Ok o => (mkHeap (neo_objs h ++ [o]) (approach_objs h), Ok (length (neo_objs h)))
    | Raise e => (h, Raise e)
    end.
Proof.
  unfold NearEarthObject_new, bind, lift, new_neo.
  destruct (NearEarthObject_init des nm dia pha); reflexivity.
Qed.

Lemma CloseApproach_new_result des t dist v h :
  CloseApproach_new cd_to_datetime des t dist v h =
    match CloseApproach_init cd_to_datetime des t dist v with
    | Ok c => (mkHeap (neo_objs h) (approach_objs h ++ [c]), Ok (length (approach_objs h)))
    | Raise e => (h, Raise e)
    end.
Proof.
  unfold CloseApproach_new, bind, lift, new_approach.
  destruct (CloseApproach_init cd_to_datetime des t dist v); reflexivity.
Qed.

Lemma CloseApproach_init_bad_distance des t dist v :
  float dist = Raise ValueError ->
  CloseApproach_init cd_to_datetime des t dist v = Raise (after_time cd_to_datetime t ValueError).
Proof.
  intros H. unfold CloseApproach_init, after_time, rbind.
  destruct (cd_to_datetime t); [rewrite H|]; reflexivity.
Qed.

Lemma CloseApproach_init_bad_velocity des t dist v :
  float v = Raise ValueError ->
  CloseApproach_init cd_to_datetime des t dist v = Raise (after_time cd_to_datetime t ValueError).
Proof.
  intros H. unfold CloseApproach_init, after_time, rbind.
  destruct (cd_to_datetime t); [|reflexivity].
  destruct (float dist) as [x|e] eqn:E; [rewrite H; reflexivity|].
  apply float_raises_ValueError in E as ->. reflexivity.
Qed.

(** C6: a non-empty numeric field [s] that does not parse makes the
    constructor raise and leaves the store as it was, so no entity exists
    for that record: [ValueError] from [NearEarthObject] with [s] as the
    diameter, and from [CloseApproach] with [s] as the distance or as the
    velocity (the time helper runs first; when it returns, the error is the
    [ValueError] of the number). *)
Theorem malformed_number_raises_and_builds_nothing s des nm pha t x h :
  s <> "" ->
  is_ok (float s) = false ->
  NearEarthObject_new des nm s pha h = (h, Raise ValueError) /\
  CloseApproach_new cd_to_datetime des t s x h = (h, Raise (after_time cd_to_datetime t ValueError)) /\
  CloseApproach_new cd_to_datetime des t x s h = (h, Raise (after_time cd_to_datetime t ValueError)) /\
  (is_ok (cd_to_datetime t) = true -> after_time cd_to_datetime t ValueError = ValueError).
Proof.
  intros Hne Hs.
  assert (Hf : float s = Raise ValueError).
  { destruct (float s) as [y|e] eqn:E; [discriminate|].
    apply float_raises_ValueError in E as ->. reflexivity. }
  repeat split.
  - rewrite NearEarthObject_new_result. unfold NearEarthObject_init.
    apply String.eqb_neq in Hne. rewrite Hne. simpl. rewrite Hf. reflexivity.
  - rewrite CloseApproach_new_result, CloseApproach_init_bad_distance; auto.
  - rewrite CloseApproach_new_result, CloseApproach_init_bad_velocity; auto.
  - unfold after_time. destruct (cd_to_datetime t); [reflexivity|discriminate].
Qed.

(** C9: an empty distance or an empty velocity makes [CloseApproach] raise
    (the [ValueError] of the number parser once the time helper has
    returned) and adds no object to the store, whereas an empty diameter
    gives a NearEarthObject whose diameter is the NaN sentinel. *)
Theorem empty_distance_or_velocity_raises des t x nm pha h :
  CloseApproach_new cd_to_datetime des t "" x h = (h, Raise (after_time cd_to_datetime t ValueError)) /\
  CloseApproach_new cd_to_datetime des t x "" h = (h, Raise (after_time cd_to_datetime t ValueError)) /\
  (is_ok (cd_to_datetime t) = true -> after_time cd_to_datetime t ValueError = ValueError) /\
  (exists o, NearEarthObject_init des nm "" pha = Ok o /\ diameter o = FNan).
Proof.
  repeat split.
  - rewrite CloseApproach_new_result, CloseApproach_init_bad_distance; auto.
  - rewrite CloseApproach_new_result, CloseApproach_init_bad_velocity; auto.
  - unfold after_time. destruct (cd_to_datetime t); [reflexivity|discriminate].
  - eexists. split; reflexivity.
Qed.

End HelperProperties.

(** C4, as stated, fails: the approach that [load_approaches] builds is
    unlinked, and serializing it raises [AttributeError]. *)
Lemma unlinked_approach_serialize_counterexample :
  exists h r c,
    load_approaches TimeHelper.cd_to_datetime
      (mkFileData ["des"; "cd"; "dist"; "v_rel"] [["433"; "1900-Jan-01 12:11"; "0.3"; "5.5"]])
      empty_heap = (h, Ok [r]) /\
    approach_objs h !! r = Some c /\ neo c = None /\
    CloseApproach_serialize TimeHelper.datetime_to_str r h = (h, Raise AttributeError) /\
    ~ (exists h' d, CloseApproach_serialize TimeHelper.datetime_to_str r h = (h', Ok d)).
Proof.
  do 3 eexists. repeat split; try reflexivity.
  intros (h' & d & H). vm_compute in H. discriminate.
Qed.

Lemma approach_serialize_needs_linked_neo_witness :
  let c := mkCloseApproach "433" (mkDatetime 1900 1 1 12 11)
             (FDec false 3 (-1)) (FDec false 55 (-1)) None in
  let h := mkHeap [] [c] in
  CloseApproach_serialize TimeHelper.datetime_to_str 0 h = (h, Raise AttributeError).
Proof.
  intros c h.
  exact (approach_serialize_needs_linked_neo TimeHelper.datetime_to_str
           h 0 c "1900-01-01 12:11" eq_refl eq_refl).
Defined.

Lemma malformed_number_raises_and_builds_nothing_witness :
  NearEarthObject_new "433" "Eros" "abc" "N" empty_heap = (empty_heap, Raise ValueError) /\
  CloseApproach_new TimeHelper.cd_to_datetime "433" "1900-Jan-01 12:11" "abc" "5.5" empty_heap
    = (empty_heap, Raise ValueError).
Proof.
  destruct (malformed_number_raises_and_builds_nothing TimeHelper.cd_to_datetime
              "abc" "433" "Eros" "N" "1900-Jan-01 12:11" "5.5" empty_heap)
    as (H1 & H2 & _); [discriminate|reflexivity|].
  split; [exact H1|exact H2].
Defined.

(** ** The loaders *)

Lemma list_index_Ok l x i : list_index l x = Ok i -> l !! i = Some x.
Proof.
  revert i. induction l as [|y l IH]; intros i; simpl; [discriminate|].
  destruct (String.eqb_spec y x) as [->|_].
  - intros [= <-]. reflexivity.
  - destruct (list_index l x) as [j|e]; simpl; [|discriminate].
    intros [= <-]. simpl. auto.
Qed.

Lemma list_index_Raise l x e : list_index l x = Raise e -> e = ValueError /\ x ∉ l.
Proof.
  induction l as [|y l IH]; simpl.
  - intros [= <-]. split; [reflexivity|]. apply not_elem_of_nil.
  - destruct (String.eqb_spec y x) as [->|Hne]; [discriminate|].
    destruct (list_index l x) as [j|e'] eqn:E; simpl; [discriminate|].
    intros [= <-]. destruct (IH eq_refl) as [-> Hx]. split; [reflexivity|].
    rewrite elem_of_cons. intuition congruence.
Qed.

Lemma list_index_missing l x : x ∉ l -> list_index l x = Raise ValueError.
Proof.
  intros Hx. destruct (list_index l x) as [i|e] eqn:E.
  - exfalso. apply Hx. eapply list_elem_of_lookup_2, list_index_Ok, E.
  - apply list_index_Raise in E as [-> _]. reflexivity.
Qed.

Lemma list_index_present l x : x ∈ l -> exists i, list_index l x = Ok i.
Proof.
  intros Hx. destruct (list_index l x) as [i|e] eqn:E; [eauto|].
  apply list_index_Raise in E as [_ ?]. contradiction.
Qed.

(** The header resolves exactly when it has the four names; otherwise the
    lookup raises [ValueError]. *)
Lemma resolve_indices_missing labels l :
  l ∈ required_fields -> l ∉ labels -> resolve_indices labels = Raise ValueError.
Proof.
  intros Hl Hn. unfold resolve_indices, rbind.
  destruct (list_index labels "des") as [i1|e1] eqn:E1;
    [|apply list_index_Raise in E1 as [-> _]; reflexivity].
  destruct (list_index labels "cd") as [i2|e2] eqn:E2;
    [|apply list_index_Raise in E2 as [-> _]; reflexivity].
  destruct (list_index labels "dist") as [i3|e3] eqn:E3;
    [|apply list_index_Raise in E3 as [-> _]; reflexivity].
  destruct (list_index labels "v_rel") as [i4|e4] eqn:E4;
    [|apply list_index_Raise in E4 as [-> _]; reflexivity].
  exfalso. apply Hn. unfold required_fields in Hl.
  repeat (apply elem_of_cons in Hl as [->|Hl];
          [eapply list_elem_of_lookup_2, list_index_Ok; eassumption|]).
  apply elem_of_nil in Hl. contradiction.
Qed.

Lemma resolve_indices_present labels :
  Forall (fun l => l ∈ labels) required_fields ->
  exists ix, resolve_indices labels = Ok ix /\
    labels !! designation_index ix = Some "des" /\
    labels !! time_index ix = Some "cd" /\
    labels !! distance_index ix = Some "dist" /\
    labels !! velocity_index ix = Some "v_rel".
Proof.
  unfold required_fields. rewrite !Forall_cons. intros (H1 & H2 & H3 & H4 & _).
  apply list_index_present in H1 as [i1 E1], H2 as [i2 E2], H3 as [i3 E3], H4 as [i4 E4].
  exists (mkIndices i1 i2 i3 i4). unfold resolve_indices.
  rewrite E1, E2, E3, E4. simpl. eauto 10 using list_index_Ok.
Qed.

Section LoaderProperties.

Variable cd_to_datetime : string -> result datetime.

(** C5: when the header lacks one of [des], [cd], [dist], [v_rel],
    [load_approaches] raises the [ValueError] of the header lookup on any
    store and whatever the data rows are, and the store is unchanged: no
    row is looked at and no CloseApproach is constructed.  The positions
    come from the header alone, resolved before the loop. *)
Theorem missing_field_name_fails_before_any_row f h l :
  l ∈ required_fields ->
  l ∉ fields f ->
  resolve_indices (fields f) = Raise ValueError /\
  load_approaches cd_to_datetime f h = (h, Raise ValueError) /\
  (forall rows, load_approaches cd_to_datetime (mkFileData (fields f) rows) h
                = (h, Raise ValueError)).
Proof.
  intros Hl Hn. pose proof (resolve_indices_missing _ _ Hl Hn) as E.
  split; [exact E|].
  unfold load_approaches, bind, lift. simpl. rewrite E. auto.
Qed.

End LoaderProperties.

Lemma missing_field_name_fails_before_any_row_witness :
  let f := mkFileData ["des"; "cd"; "v_rel"] [["433"; "1900-Jan-01 12:11"; "5.5"]; []] in
  resolve_indices (fields f) = Raise ValueError /\
  load_approaches TimeHelper.cd_to_datetime f empty_heap = (empty_heap, Raise ValueError) /\
  (forall rows, load_approaches TimeHelper.cd_to_datetime (mkFileData (fields f) rows) empty_heap
                = (empty_heap, Raise ValueError)).
Proof.
  intros f.
  apply (missing_field_name_fails_before_any_row TimeHelper.cd_to_datetime f empty_heap "dist").
  - refine (bool_decide_unpack _ _). vm_compute. exact I.
  - refine (bool_decide_unpack _ _). vm_compute. exact I.
Defined.

(** *** [load_neos] *)

Lemma neo_of_row_result row h :
  neo_of_row row h =
    match record_of_row row with
    | Ok o => (mkHeap (neo_objs h ++ [o]) (approach_objs h), Ok (length (neo_objs h)))
    | Raise e => (h, Raise e)
    end.
Proof.
  unfold neo_of_row, record_of_row, bind, lift, rbind.
  destruct (dict_getitem row "pdes"); [|reflexivity].
  destruct (dict_getitem row "name"); [|reflexivity].
  destruct (dict_getitem row "diameter"); [|reflexivity].
  destruct (dict_getitem row "pha"); [|reflexivity].
  apply NearEarthObject_new_result.
Qed.

(** A record constructs exactly when it has the four fields and its
    diameter is empty or parses. *)
Lemma record_of_row_Ok row o :
  record_of_row row = Ok o ->
  exists pdes nm dia pha,
    row !! "pdes" = Some pdes /\ row !! "name" = Some nm /\
    row !! "diameter" = Some dia /\ row !! "pha" = Some pha /\
    NearEarthObject_init pdes nm dia pha = Ok o.
Proof.
  unfold record_of_row, dict_getitem, rbind.
  destruct (row !! "pdes") as [pdes|]; [|discriminate].
  destruct (row !! "name") as [nm|]; [|discriminate].
  destruct (row !! "diameter") as [dia|]; [|discriminate].
  destruct (row !! "pha") as [pha|]; [|discriminate].
  eauto 10.
Qed.

Lemma well_formed_row_constructs row :
  well_formed_row row = true -> is_ok (record_of_row row) = true.
Proof.
  unfold well_formed_row, record_of_row, dict_getitem, rbind.
  destruct (row !! "pdes") as [pdes|]; [|discriminate].
  destruct (row !! "name") as [nm|]; [|discriminate].
  destruct (row !! "diameter") as [dia|]; [|discriminate].
  destruct (row !! "pha") as [pha|]; [|discriminate].
  unfold NearEarthObject_init, rbind.
  destruct (String.eqb dia ""); simpl; [reflexivity|].
  destruct (float dia); [reflexivity|discriminate].
Qed.

Lemma load_neos_loop_Ok reader os :
  Forall2 (fun row o => record_of_row row = Ok o) reader os ->
  forall neos h,
    load_neos_loop reader neos h =
      (mkHeap (neo_objs h ++ os) (approach_objs h),
       Ok (neos ++ seq (length (neo_objs h)) (length os))%list).
Proof.
  induction 1 as [|row o reader os Hrow _ IH]; intros neos h; simpl.
  - unfold ret. rewrite !app_nil_r. destruct h; reflexivity.
  - unfold bind. rewrite neo_of_row_result, Hrow, IH. simpl.
    rewrite length_app, <- !app_assoc. simpl.
    replace (length (neo_objs h) + 1) with (S (length (neo_objs h))) by lia.
    reflexivity.
Qed.

Lemma Forall_is_ok_Forall2 {A B} (f : A -> result B) (l : list A) :
  Forall (fun a => is_ok (f a) = true) l ->
  exists k, Forall2 (fun a b => f a = Ok b) l k.
Proof.
  induction 1 as [|a l Ha _ [k IH]].
  - exists []. constructor.
  - destruct (f a) as [b|] eqn:E; [|discriminate].
    exists (b :: k). constructor; assumption.
Qed.

(** C7, as stated, fails: a record whose diameter does not parse makes
    [load_neos] raise, and no collection is produced. *)
Lemma load_neos_malformed_record_counterexample :
  let reader :=
    [ {[ "pdes" := "433"; "name" := "Eros"; "diameter" := "abc"; "pha" := "N" ]} ] in
  load_neos reader empty_heap = (empty_heap, Raise ValueError) /\
  ~ (exists h' neos, load_neos reader empty_heap = (h', Ok neos) /\
                     length neos = length reader).
Proof.
  intros reader.
  assert (E : load_neos reader empty_heap = (empty_heap, Raise ValueError))
    by (vm_compute; reflexivity).
  split; [exact E|]. intros (h' & neos & H & _). rewrite E in H. discriminate.
Qed.

(** C7 (amended): for every tabular source whose records all construct
    (each has the four fields, with a diameter that is empty or parses),
    [load_neos] returns one NearEarthObject per record, in source order,
    each distinct from the others, whose designation is the [pdes] field
    unchanged; equal designations are neither merged nor rejected. *)
Theorem load_neos_one_object_per_record reader h :
  Forall (fun row => well_formed_row row = true) reader ->
  exists h' neos,
    load_neos reader h = (h', Ok neos) /\
    length neos = length reader /\
    NoDup neos /\
    forall i row, reader !! i = Some row ->
      exists r o, neos !! i = Some r /\ neo_objs h' !! r = Some o /\
                  record_of_row row = Ok o /\
                  row !! "pdes" = Some (designation o).
Proof.
  intros Hwf.
  assert (Hok : Forall (fun row => is_ok (record_of_row row) = true) reader)
    by (eapply Forall_impl; [exact Hwf|apply well_formed_row_constructs]).
  apply Forall_is_ok_Forall2 in Hok as [os Hos].
  pose proof (Forall2_length _ _ _ Hos) as Hlen.
  eexists _, _. split; [apply (load_neos_loop_Ok _ _ Hos)|]. simpl.
  split; [rewrite length_seq; auto|].
  split; [apply NoDup_seq|].
  intros i row Hi.
  destruct (Forall2_lookup_l _ _ _ _ _ Hos Hi) as (o & Ho & Hrow).
  exists (length (neo_objs h) + i), o.
  split; [apply lookup_seq; split; [reflexivity|eapply lookup_lt_Some, Ho]|].
  split; [rewrite lookup_app_r by lia; rewrite <- Ho; f_equal; lia|].
  split; [exact Hrow|].
  apply record_of_row_Ok in Hrow as (pdes & nm & dia & pha & -> & _ & _ & _ & Hinit).
  apply NearEarthObject_init_Ok in Hinit as (-> & _). reflexivity.
Qed.

Lemma load_neos_one_object_per_record_witness :
  let twin := {[ "pdes" := "433"; "name" := ""; "diameter" := ""; "pha" := "Y" ]} in
  let reader :=
    [ {[ "pdes" := "433"; "name" := "Eros"; "diameter" := "16.84"; "pha" := "N" ]}; twin ] in
  exists h' neos,
    load_neos reader empty_heap = (h', Ok neos) /\
    length neos = length reader /\
    NoDup neos /\
    forall i row, reader !! i = Some row ->
      exists r o, neos !! i = Some r /\ neo_objs h' !! r = Some o /\
                  record_of_row row = Ok o /\
                  row !! "pdes" = Some (designation o).
Proof.
  intros twin reader.
  apply (load_neos_one_object_per_record reader empty_heap).
  repeat constructor.
Defined.

(** *** [load_approaches] *)

Section ApproachLoader.

Variable cd_to_datetime : string -> result datetime.

Lemma approach_of_row_result ix ca_data h :
  approach_of_row cd_to_datetime ix ca_data h =
    match approach_record_of_row cd_to_datetime ix ca_data with
    | Ok c => (mkHeap (neo_objs h) (approach_objs h ++ [c]), Ok (length (approach_objs h)))
    | Raise e => (h, Raise e)
    end.
Proof.
  unfold approach_of_row, approach_record_of_row, bind, lift, rbind.
  destruct (list_getitem ca_data (designation_index ix)); [|reflexivity].
  destruct (list_getitem ca_data (time_index ix)); [|reflexivity].
  destruct (list_getitem ca_data (distance_index ix)); [|reflexivity].
  destruct (list_getitem ca_data (velocity_index ix)); [|reflexivity].
  apply CloseApproach_new_result.
Qed.

Lemma CloseApproach_init_Ok des t dist v c :
  CloseApproach_init cd_to_datetime des t dist v = Ok c ->
  _designation c = des /\
  cd_to_datetime t = Ok (time c) /\
  float dist = Ok (distance c) /\
  float v = Ok (velocity c) /\
  neo c = None.
Proof.
  unfold CloseApproach_init, rbind.
  destruct (cd_to_datetime t); [|discriminate].
  destruct (float dist); [|discriminate].
  destruct (float v); [|discriminate].
  intros [= <-]. auto.
Qed.

(** A data row constructs exactly when it reaches the four positions, its
    time is accepted by the helper and its distance and velocity parse. *)
Lemma approach_record_of_row_Ok ix ca_data c :
  approach_record_of_row cd_to_datetime ix ca_data = Ok c ->
  exists des t dist v,
    ca_data !! designation_index ix = Some des /\
    ca_data !! time_index ix = Some t /\
    ca_data !! distance_index ix = Some dist /\
    ca_data !! velocity_index ix = Some v /\
    CloseApproach_init cd_to_datetime des t dist v = Ok c.
Proof.
  unfold approach_record_of_row, list_getitem, rbind.
  destruct (ca_data !! designation_index ix) as [des|]; [|discriminate].
  destruct (ca_data !! time_index ix) as [t|]; [|discriminate].
  destruct (ca_data !! distance_index ix) as [dist|]; [|discriminate].
  destruct (ca_data !! velocity_index ix) as [v|]; [|discriminate].
  eauto 10.
Qed.

Lemma well_formed_data_row_constructs ix ca_data :
  well_formed_data_row cd_to_datetime ix ca_data = true ->
  is_ok (approach_record_of_row cd_to_datetime ix ca_data) = true.
Proof.
  unfold well_formed_data_row, approach_record_of_row, list_getitem, rbind.
  destruct (ca_data !! designation_index ix) as [des|]; [|discriminate].
  destruct (ca_data !! time_index ix) as [t|]; [|discriminate].
  destruct (ca_data !! distance_index ix) as [dist|]; [|discriminate].
  destruct (ca_data !! velocity_index ix) as [v|]; [|discriminate].
  unfold CloseApproach_init, rbind.
  destruct (cd_to_datetime t); [|discriminate].
  destruct (float dist); [|discriminate].
  destruct (float v); [reflexivity|discriminate].
Qed.

Lemma load_approaches_loop_Ok ix rows cs :
  Forall2 (fun row c => approach_record_of_row cd_to_datetime ix row = Ok c) rows cs ->
  forall cas h,
    load_approaches_loop cd_to_datetime ix rows cas h =
      (mkHeap (neo_objs h) (approach_objs h ++ cs),
       Ok (cas ++ seq (length (approach_objs h)) (length cs))%list).
Proof.
  induction 1 as [|row c rows cs Hrow _ IH]; intros cas h; simpl.
  - unfold ret. rewrite !app_nil_r. destruct h; reflexivity.
  - unfold bind. rewrite approach_of_row_result, Hrow, IH. simpl.
    rewrite length_app, <- !app_assoc. simpl.
    replace (length (approach_objs h) + 1) with (S (length (approach_objs h))) by lia.
    reflexivity.
Qed.

(** C8 (amended): for every columnar source whose header has the four
    names and whose data rows all construct (each reaches the four
    positions, with a time the helper accepts and a distance and velocity
    that parse), [load_approaches] returns one CloseApproach per data row,
    in source order, each distinct from the others; its designation is the
    value at the position of [des] in the header, unchanged, and its [neo]
    is absent. *)
Theorem load_approaches_one_object_per_row f ix h :
  resolve_indices (fields f) = Ok ix ->
  Forall (fun row => well_formed_data_row cd_to_datetime ix row = true) (data f) ->
  exists h' cas,
    load_approaches cd_to_datetime f h = (h', Ok cas) /\
    length cas = length (data f) /\
    NoDup cas /\
    fields f !! designation_index ix = Some "des" /\
    forall i (row : list string), data f !! i = Some row ->
      exists r c, cas !! i = Some r /\ approach_objs h' !! r = Some c /\
                  row !! designation_index ix = Some (_designation c) /\
                  neo c = None.
Proof.
  intros Hix Hwf.
  assert (Hok : Forall (fun row =>
                  is_ok (approach_record_of_row cd_to_datetime ix row) = true) (data f))
    by (eapply Forall_impl; [exact Hwf|apply well_formed_data_row_constructs]).
  apply Forall_is_ok_Forall2 in Hok as [cs Hcs].
  pose proof (Forall2_length _ _ _ Hcs) as Hlen.
  eexists _, _. split.
  { unfold load_approaches, bind, lift. rewrite Hix.
    apply (load_approaches_loop_Ok _ _ _ Hcs). }
  simpl. split; [rewrite length_seq; auto|].
  split; [apply NoDup_seq|].
  split.
  { unfold resolve_indices, rbind in Hix.
    destruct (list_index (fields f) "des") as [i1|] eqn:E1; [|discriminate].
    destruct (list_index (fields f) "cd"); [|discriminate].
    destruct (list_index (fields f) "dist"); [|discriminate].
    destruct (list_index (fields f) "v_rel"); [|discriminate].
    injection Hix as <-. simpl. eapply list_index_Ok, E1. }
  intros i row Hi.
  destruct (Forall2_lookup_l _ _ _ _ _ Hcs Hi) as (c & Hc & Hrow).
  exists (length (approach_objs h) + i), c.
  split; [apply lookup_seq; split; [reflexivity|eapply lookup_lt_Some, Hc]|].
  split; [rewrite lookup_app_r by lia; rewrite <- Hc; f_equal; lia|].
  apply approach_record_of_row_Ok in Hrow as (des & t & dist & v & -> & _ & _ & _ & Hinit).
  apply CloseApproach_init_Ok in Hinit as (-> & _ & _ & _ & ->). auto.
Qed.

End ApproachLoader.

(** C8, as stated, fails: the header is valid, and a data row with an empty
    distance makes [load_approaches] raise; no collection is produced. *)
Lemma load_approaches_malformed_row_counterexample :
  let f := mkFileData ["des"; "cd"; "dist"; "v_rel"]
             [["433"; "1900-Jan-01 12:11"; ""; "5.5"]] in
  Forall (fun l => l ∈ fields f) required_fields /\
  load_approaches TimeHelper.cd_to_datetime f empty_heap = (empty_heap, Raise ValueError) /\
  ~ (exists h' cas, load_approaches TimeHelper.cd_to_datetime f empty_heap = (h', Ok cas) /\
                    length cas = length (data f)).
Proof.
  intros f.
  assert (E : load_approaches TimeHelper.cd_to_datetime f empty_heap
              = (empty_heap, Raise ValueError)) by (vm_compute; reflexivity).
  split; [unfold required_fields; repeat constructor|].
  split; [exact E|]. intros (h' & cas & H & _). rewrite E in H. discriminate.
Qed.

Lemma load_approaches_one_object_per_row_witness :
  let f := mkFileData ["orbit_id"; "des"; "cd"; "dist"; "v_rel"]
             [ ["7"; "433"; "1900-Jan-01 12:11"; "0.3"; "5.5"];
               ["8"; "433"; "2020-Dec-31 23:59"; "1e-2"; "12"] ] in
  let ix := mkIndices 1 2 3 4 in
  exists h' cas,
    load_approaches TimeHelper.cd_to_datetime f empty_heap = (h', Ok cas) /\
    length cas = length (data f) /\
    NoDup cas /\
    fields f !! designation_index ix = Some "des" /\
    forall i (row : list string), data f !! i = Some row ->
      exists r c, cas !! i = Some r /\ approach_objs h' !! r = Some c /\
                  row !! designation_index ix = Some (_designation c) /\
                  neo c = None.
Proof.
  intros f ix.
  apply (load_approaches_one_object_per_row TimeHelper.cd_to_datetime f ix empty_heap).
  - reflexivity.
  - repeat constructor.
Defined.

(** ** The worked examples of the specification *)

Example neo_433_Eros :
  exists o,
    NearEarthObject_init "433" "Eros" "16.84" "N" = Ok o /\
    designation o = "433" /\ name o = Some "Eros" /\
    diameter o = FDec false 1684 (-2) /\ hazardous o = false /\
    fullname_of o = "433 (Eros)".
Proof. eexists. repeat split; reflexivity. Qed.

Example approach_433_1900 :
  exists h r c,
    load_approaches TimeHelper.cd_to_datetime
      (mkFileData ["des"; "cd"; "dist"; "v_rel"] [["433"; "1900-Jan-01 12:11"; "0.3"; "5.5"]])
      empty_heap = (h, Ok [r]) /\
    approach_objs h !! r = Some c /\
    _designation c = "433" /\
    CloseApproach_time_str TimeHelper.datetime_to_str r h = (h, Ok "1900-01-01 12:11") /\
    distance c = FDec false 3 (-1) /\ velocity c = FDec false 55 (-1).
Proof. do 3 eexists. repeat split; reflexivity. Qed.

(** * Further properties of the loaders and the entities *)

(** ** Loops that stop at the first exception *)

Lemma built_before_raise_cases {A} (rs : list (result A)) :
  match built_before_raise rs with
  | (os, None) => rs = map Ok os
  | (os, Some e) => exists rest, rs = (map Ok os ++ Raise e :: rest)%list
  end.
Proof.
  induction rs as [|[a|e] rs IH]; simpl.
  - reflexivity.
  - destruct (built_before_raise rs) as [os [e|]]; simpl.
    + destruct IH as [rest ->]. eauto.
    + congruence.
  - eauto.
Qed.

Lemma built_before_raise_all_Ok {A} (os : list A) :
  built_before_raise (map Ok os) = (os, None).
Proof. induction os as [|o os IH]; simpl; [|rewrite IH]; reflexivity. Qed.


Lemma built_before_raise_app {A} (rs1 rs2 : list (result A)) :
  built_before_raise (rs1 ++ rs2) =
    match built_before_raise rs1 with
    | (os1, None) => let '(os2, e) := built_before_raise rs2 in ((os1 ++ os2)%list, e)
    | (os1, Some e) => (os1, Some e)
    end.
Proof.
  induction rs1 as [|[a|e] rs1 IH]; simpl.
  - destruct (built_before_raise rs2); reflexivity.
  - rewrite IH. destruct (built_before_raise rs1) as [os1 [e|]]; [reflexivity|].
    destruct (built_before_raise rs2); reflexivity.
  - reflexivity.
Qed.

Lemma built_before_raise_from {A B} (f : A -> result B) (l : list A) :
  Forall (fun o => exists a, In a l /\ f a = Ok o) (fst (built_before_raise (map f l))) /\
  length (fst (built_before_raise (map f l))) <= length l.
Proof.
  induction l as [|a l [IH1 IH2]]; simpl.
  - split; [constructor|lia].
  - destruct (f a) as [b|e] eqn:E; simpl; [|split; [constructor|lia]].
    destruct (built_before_raise (map f l)) as [os e]. simpl in *.
    split; [|lia]. constructor; [eauto|].
    eapply Forall_impl; [exact IH1|]. intros o (a' & ? & ?). eauto.
Qed.

(** ** [load_neos] on every source *)

(** The loop of [load_neos] as a whole. *)
Lemma load_neos_loop_run reader :
  forall neos h,
    load_neos_loop reader neos h =
      (mkHeap (neo_objs h ++ fst (built_before_raise (map record_of_row reader)))
              (approach_objs h),
       match snd (built_before_raise (map record_of_row reader)) with
       | None =>
           Ok (neos ++ seq (length (neo_objs h))
                         (length (fst (built_before_raise (map record_of_row reader)))))%list
       | Some e => Raise e
       end).
Proof.
  induction reader as [|row reader IH]; intros neos h; simpl.
  - unfold ret. rewrite !app_nil_r. destruct h; reflexivity.
  - unfold bind. rewrite neo_of_row_result.
    destruct (record_of_row row) as [o|e]; simpl.
    + rewrite IH. simpl.
      destruct (built_before_raise (map record_of_row reader)) as [os e]. simpl.
      rewrite length_app, <- !app_assoc. simpl.
      replace (length (neo_objs h) + 1) with (S (length (neo_objs h))) by lia.
      reflexivity.
    + rewrite app_nil_r. destruct h; reflexivity.
Qed.

Lemma record_of_row_well_formed row :
  is_ok (record_of_row row) = well_formed_row row.
Proof.
  unfold well_formed_row, record_of_row, dict_getitem, rbind.
  destruct (row !! "pdes") as [pdes|]; [|reflexivity].
  destruct (row !! "name") as [nm|]; [|reflexivity].
  destruct (row !! "diameter") as [dia|]; [|reflexivity].
  destruct (row !! "pha") as [pha|]; [|reflexivity].
  unfold NearEarthObject_init, rbind.
  destruct (String.eqb dia ""); simpl; [reflexivity|].
  destruct (float dia); reflexivity.
Qed.


(** X1: whatever the source and whether it returns or raises, [load_neos]
    only adds NearEarthObjects to the store: the objects already there are
    kept as they are and in place, no CloseApproach is created or changed,
    at most one object is added per record, and every added object has an
    empty collection of approaches and a name that is never the empty
    string. *)
Theorem load_neos_only_adds_fresh_neos reader h :
  exists os,
    fst (load_neos reader h) = mkHeap (neo_objs h ++ os) (approach_objs h) /\
    length os <= length reader /\
    Forall (fun o => approaches o = [] /\ name o <> Some "") os.
Proof.
  unfold load_neos. rewrite load_neos_loop_run. simpl.
  destruct (built_before_raise_from record_of_row reader) as [Hfrom Hlen].
  eexists. split; [reflexivity|]. split; [exact Hlen|].
  eapply Forall_impl; [exact Hfrom|]. simpl.
  intros o (row & _ & Hrow).
  apply record_of_row_Ok in Hrow as (pdes & nm & dia & pha & _ & _ & _ & _ & Hinit).
  apply NearEarthObject_init_Ok in Hinit as (_ & Hn & _ & _ & Ha).
  split; [exact Ha|]. rewrite Hn.
  destruct (String.eqb_spec nm ""); congruence.
Qed.

(** X2: [load_neos] returns a collection exactly when every record of the
    source is well formed (has the four fields, with a diameter that is
    empty or parses). *)
Theorem load_neos_returns_iff_all_well_formed reader h :
  (exists h' neos, load_neos reader h = (h', Ok neos)) <->
  Forall (fun row => well_formed_row row = true) reader.
Proof.
  unfold load_neos. rewrite load_neos_loop_run.
  pose proof (built_before_raise_cases (map record_of_row reader)) as Hc.
  destruct (built_before_raise (map record_of_row reader)) as [os [e|]]; simpl.
  - split; [intros (h' & neos & [=])|].
    intros Hwf. exfalso. destruct Hc as [rest Hc].
    assert (Hin : In (Raise e) (map record_of_row reader))
      by (rewrite Hc; apply in_or_app; right; left; reflexivity).
    apply in_map_iff in Hin as (row & Hrow & Hin).
    rewrite Forall_forall in Hwf. apply list_elem_of_In in Hin.
    specialize (Hwf row Hin).
    rewrite <- record_of_row_well_formed, Hrow in Hwf. discriminate.
  - split; [|eauto]. intros _. apply Forall_forall. intros row Hin.
    apply list_elem_of_In in Hin.
    apply (in_map record_of_row) in Hin. rewrite Hc in Hin.
    apply in_map_iff in Hin as (o & Ho & _).
    rewrite <- record_of_row_well_formed, <- Ho. reflexivity.
Qed.



Lemma record_of_row_first_missing row k :
  first_missing row = Some k -> record_of_row row = Raise (KeyError k).
Proof.
  unfold first_missing, neo_fields, record_of_row, dict_getitem, rbind. simpl.
  destruct (row !! "pdes"); [|intros [= <-]; reflexivity].
  destruct (row !! "name"); [|intros [= <-]; reflexivity].
  destruct (row !! "diameter"); [|intros [= <-]; reflexivity].
  destruct (row !! "pha"); [discriminate|intros [= <-]; reflexivity].
Qed.

(** X4: a record that lacks a field makes [load_neos] raise [KeyError] for
    the first field it lacks, in the order [pdes], [name], [diameter],
    [pha]: the fields are all read before the object is constructed, so
    this comes before any complaint about the diameter, and nothing is added
    to the store. *)
Theorem load_neos_missing_field_raises_KeyError row k rest h :
  first_missing row = Some k ->
  load_neos (row :: rest) h = (h, Raise (KeyError k)).
Proof.
  intros Hk. unfold load_neos. rewrite load_neos_loop_run. simpl.
  rewrite (record_of_row_first_missing _ _ Hk). simpl.
  rewrite app_nil_r. destruct h; reflexivity.
Qed.

Lemma load_neos_missing_field_raises_KeyError_witness :
  load_neos
    [ {[ "pdes" := "433"; "name" := "Eros"; "diameter" := "not a number" ]};
      {[ "pdes" := "719"; "name" := ""; "diameter" := ""; "pha" := "N" ]} ]
    empty_heap
  = (empty_heap, Raise (KeyError "pha")).
Proof.
  apply (load_neos_missing_field_raises_KeyError
           {[ "pdes" := "433"; "name" := "Eros"; "diameter" := "not a number" ]} "pha").
  reflexivity.
Defined.

Lemma record_of_row_fields_eq row1 row2 :
  row_fields row1 = row_fields row2 -> record_of_row row1 = record_of_row row2.
Proof.
  unfold row_fields, record_of_row, dict_getitem.
  intros [= -> -> -> ->]. reflexivity.
Qed.

(** X5: [load_neos] reads nothing but the fields [pdes], [name],
    [diameter] and [pha]: two sources whose records agree on these four, one
    by one, give the same outcome on the same store, whatever other columns
    they carry. *)
Theorem load_neos_reads_only_four_fields reader1 reader2 h :
  map row_fields reader1 = map row_fields reader2 ->
  load_neos reader1 h = load_neos reader2 h.
Proof.
  intros Heq. unfold load_neos. rewrite !load_neos_loop_run.
  assert (E : map record_of_row reader1 = map record_of_row reader2).
  { revert reader2 Heq.
    induction reader1 as [|a r1 IH]; intros [|b r2]; simpl; try discriminate; [reflexivity|].
    intros [= H1 H2 H3 H4 Hr]. rewrite (IH _ Hr). f_equal.
    apply record_of_row_fields_eq. unfold row_fields. congruence. }
  rewrite E. reflexivity.
Qed.

Lemma load_neos_reads_only_four_fields_witness :
  load_neos
    [ {[ "pdes" := "433"; "name" := "Eros"; "diameter" := "16.84"; "pha" := "N" ]} ]
    empty_heap
  = load_neos
      [ {[ "id" := "a0000433"; "pdes" := "433"; "name" := "Eros"; "diameter" := "16.84";
           "pha" := "N"; "neo" := "Y"; "albedo" := "0.25" ]} ]
      empty_heap.
Proof.
  apply load_neos_reads_only_four_fields. reflexivity.
Defined.

(** X6: loading a source made of two parts is loading the first part and
    then, on the store this leaves, the second: the collections are
    concatenated, and an exception of either part is the exception of the
    whole, with the store as it was at the raise. *)
Theorem load_neos_app reader1 reader2 h :
  load_neos (reader1 ++ reader2) h =
    match load_neos reader1 h with
    | (h1, Ok neos1) =>
        match load_neos reader2 h1 with
        | (h2, Ok neos2) => (h2, Ok (neos1 ++ neos2)%list)
        | (h2, Raise e) => (h2, Raise e)
        end
    | (h1, Raise e) => (h1, Raise e)
    end.
Proof.
  unfold load_neos.
  rewrite (load_neos_loop_run (reader1 ++ reader2)), (load_neos_loop_run reader1).
  rewrite map_app, built_before_raise_app.
  destruct (built_before_raise (map record_of_row reader1)) as [os1 [e1|]]; simpl;
    [reflexivity|].
  rewrite (load_neos_loop_run reader2). simpl.
  destruct (built_before_raise (map record_of_row reader2)) as [os2 [e2|]]; simpl;
    rewrite <- app_assoc; [reflexivity|].
  rewrite !length_app, seq_app. reflexivity.
Qed.

Lemma map_Ok_Forall2 {A B} (f : A -> result B) (l : list A) (os : list B) :
  map f l = map Ok os -> Forall2 (fun a o => f a = Ok o) l os.
Proof.
  revert os. induction l as [|a l IH]; intros [|o os]; simpl; try discriminate.
  - constructor.
  - intros [= Ha Hl]. constructor; auto.
Qed.

(** X7: every reference that [load_neos] returns can be serialized on the
    store it leaves: the mapping of the i-th reference holds the [pdes] of
    the i-th record as its designation, [None] as its name exactly when the
    raw name is empty, the NaN sentinel or the parsed diameter, and the
    hazard flag of the comparison with ["Y"]. *)
Theorem loaded_neo_serializes_its_record reader h h' neos i r row :
  load_neos reader h = (h', Ok neos) ->
  neos !! i = Some r ->
  reader !! i = Some row ->
  exists pdes nm dia pha x,
    row_fields row = (Some pdes, Some nm, Some dia, Some pha) /\
    (if String.eqb dia "" then x = FNan else float dia = Ok x) /\
    NearEarthObject_serialize r h' =
      (h', Ok [ ("designation", VStr pdes);
                ("name", if String.eqb nm "" then VNone else VStr nm);
                ("diameter_km", VFloat x);
                ("potentially_hazardous", VBool (String.eqb pha "Y")) ]).
Proof.
  unfold load_neos. rewrite load_neos_loop_run.
  pose proof (built_before_raise_cases (map record_of_row reader)) as Hc.
  destruct (built_before_raise (map record_of_row reader)) as [os [e|]]; simpl;
    [discriminate|].
  intros [= <- <-] Hr Hrow.
  apply map_Ok_Forall2 in Hc.
  destruct (Forall2_lookup_l _ _ _ _ _ Hc Hrow) as (o & Ho & Hrec).
  apply lookup_seq in Hr as [-> _].
  apply record_of_row_Ok in Hrec as (pdes & nm & dia & pha & H1 & H2 & H3 & H4 & Hinit).
  apply NearEarthObject_init_Ok in Hinit as (Hd & Hn & Hx & Hz & _).
  exists pdes, nm, dia, pha, (diameter o).
  split; [unfold row_fields; rewrite H1, H2, H3, H4; reflexivity|].
  split; [exact Hx|].
  unfold NearEarthObject_serialize, bind, get_neo, ret. simpl.
  rewrite lookup_app_r by lia.
  replace (length (neo_objs h) + i - length (neo_objs h)) with i by lia.
  rewrite Ho, Hd, Hn, Hz. destruct (String.eqb nm ""); reflexivity.
Qed.

Lemma loaded_neo_serializes_its_record_witness :
  let reader :=
    [ {[ "pdes" := "433"; "name" := "Eros"; "diameter" := "16.84"; "pha" := "N" ]};
      {[ "pdes" := "2021 AA"; "name" := ""; "diameter" := ""; "pha" := "Y" ]} ] in
  let h' := fst (load_neos reader empty_heap) in
  exists pdes nm dia pha x,
    row_fields {[ "pdes" := "2021 AA"; "name" := ""; "diameter" := ""; "pha" := "Y" ]}
      = (Some pdes, Some nm, Some dia, Some pha) /\
    (if String.eqb dia "" then x = FNan else float dia = Ok x) /\
    NearEarthObject_serialize 1 h' =
      (h', Ok [ ("designation", VStr pdes);
                ("name", if String.eqb nm "" then VNone else VStr nm);
                ("diameter_km", VFloat x);
                ("potentially_hazardous", VBool (String.eqb pha "Y")) ]).
Proof.
  intros reader h'.
  apply (loaded_neo_serializes_its_record reader empty_heap h' [0; 1] 1 1); reflexivity.
Defined.

(** ** The entities *)

(** X8: the mapping [NearEarthObject.serialize] returns determines the
    designation, the name, the diameter and the hazard flag of the object,
    and nothing else: two objects of a store have the same serialization
    exactly when they agree on these four attributes, whatever their
    approaches are. *)
Theorem neo_serialize_determines_four_attributes h r1 r2 o1 o2 :
  neo_objs h !! r1 = Some o1 ->
  neo_objs h !! r2 = Some o2 ->
  (NearEarthObject_serialize r1 h = NearEarthObject_serialize r2 h <->
   designation o1 = designation o2 /\ name o1 = name o2 /\
   diameter o1 = diameter o2 /\ hazardous o1 = hazardous o2).
Proof.
  intros H1 H2. unfold NearEarthObject_serialize, bind, get_neo, ret.
  rewrite H1, H2. split.
  - intros [= Hd Hn Hx Hz]. repeat split; auto.
    destruct (name o1), (name o2); simpl in Hn; congruence.
  - intros (-> & -> & -> & ->). reflexivity.
Qed.

Lemma neo_serialize_determines_four_attributes_witness :
  let o1 := mkNearEarthObject "433" (Some "Eros") (FDec false 1684 (-2)) false [] in
  let o2 := mkNearEarthObject "433" (Some "Eros") (FDec false 1684 (-2)) false [0; 3] in
  let h := mkHeap [o1; o2] [] in
  NearEarthObject_serialize 0 h = NearEarthObject_serialize 1 h <->
  designation o1 = designation o2 /\ name o1 = name o2 /\
  diameter o1 = diameter o2 /\ hazardous o1 = hazardous o2.
Proof.
  intros o1 o2 h.
  exact (neo_serialize_determines_four_attributes h 0 1 o1 o2 eq_refl eq_refl).
Defined.

(** X9: constructing a NearEarthObject can fail in one way only: a
    [ValueError] for a diameter that is not empty and does not parse.  The
    designation, the name and the hazard flag are accepted whatever they
    are. *)
Theorem NearEarthObject_init_raises_iff des nm dia pha e :
  NearEarthObject_init des nm dia pha = Raise e <->
  e = ValueError /\ dia <> "" /\ is_ok (float dia) = false.
Proof.
  unfold NearEarthObject_init, rbind.
  destruct (String.eqb_spec dia "") as [->|Hne]; simpl.
  - split; [discriminate|]. intros (_ & Hne & _). congruence.
  - destruct (float dia) as [x|e'] eqn:Ef; simpl.
    + split; [discriminate|]. intros (_ & _ & ?). discriminate.
    + apply float_raises_ValueError in Ef as ->.
      split; [intros [= <-]; auto|]. intros (-> & _). reflexivity.
Qed.

(** X10: [fullname] tests the truth value of the name, so an object whose
    name has been set to the empty string reads like one without a name:
    the full name is the designation alone exactly when the name is [None]
    or empty, and ["<designation> (<name>)"] for every other name. *)
Theorem fullname_is_designation_iff_name_falsy o :
  (fullname_of o = designation o <-> name o = None \/ name o = Some "") /\
  (forall n, name o = Some n -> n <> "" ->
     fullname_of o = designation o ++ " (" ++ n ++ ")").
Proof.
  unfold fullname_of, truthy. destruct (name o) as [n|]; simpl.
  - destruct (String.eqb_spec n "") as [->|Hne]; simpl.
    + split; [intuition|]. intros n [= <-] Hn. congruence.
    + split.
      * split; [|intros [?|[= ?]]; congruence].
        intros E. exfalso. revert E. apply string_app_neq. discriminate.
      * intros n' [= <-] _. reflexivity.
  - split; [intuition|]. discriminate.
Qed.

(** ** [load_approaches] on every source *)

Lemma list_index_first l x i :
  list_index l x = Ok i -> forall j, j < i -> l !! j <> Some x.
Proof.
  revert i. induction l as [|y l IH]; intros i; simpl; [discriminate|].
  destruct (String.eqb_spec y x) as [->|Hne].
  - intros [= <-] j Hj. lia.
  - destruct (list_index l x) as [k|e]; simpl; [|discriminate].
    intros [= <-] [|j] Hj; simpl; [congruence|]. apply (IH k eq_refl). lia.
Qed.

(** X11: the position [load_approaches] uses for each of [des], [cd],
    [dist], [v_rel] is the first place where the header has that name; a
    later column of the same name is never read. *)
Theorem resolve_indices_first_occurrence labels ix :
  resolve_indices labels = Ok ix ->
  (labels !! designation_index ix = Some "des" /\
   forall j, j < designation_index ix -> labels !! j <> Some "des") /\
  (labels !! time_index ix = Some "cd" /\
   forall j, j < time_index ix -> labels !! j <> Some "cd") /\
  (labels !! distance_index ix = Some "dist" /\
   forall j, j < distance_index ix -> labels !! j <> Some "dist") /\
  (labels !! velocity_index ix = Some "v_rel" /\
   forall j, j < velocity_index ix -> labels !! j <> Some "v_rel").
Proof.
  unfold resolve_indices, rbind.
  destruct (list_index labels "des") as [i1|] eqn:E1; [|discriminate].
  destruct (list_index labels "cd") as [i2|] eqn:E2; [|discriminate].
  destruct (list_index labels "dist") as [i3|] eqn:E3; [|discriminate].
  destruct (list_index labels "v_rel") as [i4|] eqn:E4; [|discriminate].
  intros [= <-]. simpl.
  repeat split; eauto using list_index_Ok, list_index_first.
Qed.

Lemma resolve_indices_first_occurrence_witness :
  let labels := ["cd"; "des"; "dist"; "des"; "v_rel"; "dist"] in
  let ix := mkIndices 1 0 2 4 in
  (labels !! designation_index ix = Some "des" /\
   forall j, j < designation_index ix -> labels !! j <> Some "des") /\
  (labels !! time_index ix = Some "cd" /\
   forall j, j < time_index ix -> labels !! j <> Some "cd") /\
  (labels !! distance_index ix = Some "dist" /\
   forall j, j < distance_index ix -> labels !! j <> Some "dist") /\
  (labels !! velocity_index ix = Some "v_rel" /\
   forall j, j < velocity_index ix -> labels !! j <> Some "v_rel").
Proof.
  intros labels ix. exact (resolve_indices_first_occurrence labels ix eq_refl).
Defined.

Section ApproachLoaderRuns.

Variable cd_to_datetime : string -> result datetime.
Variable datetime_to_str : datetime -> result string.

(** The loop of [load_approaches] as a whole. *)
Lemma load_approaches_loop_run ix rows :
  forall cas h,
    load_approaches_loop cd_to_datetime ix rows cas h =
      (mkHeap (neo_objs h)
              (approach_objs h ++ fst (built_before_raise (map (approach_record_of_row cd_to_datetime ix) rows))),
       match snd (built_before_raise (map (approach_record_of_row cd_to_datetime ix) rows)) with
       | None =>
           Ok (cas ++ seq (length (approach_objs h))
                        (length (fst (built_before_raise (map (approach_record_of_row cd_to_datetime ix) rows)))))%list
       | Some e => Raise e
       end).
Proof.
  induction rows as [|row rows IH]; intros cas h; simpl.
  - unfold ret. rewrite !app_nil_r. destruct h; reflexivity.
  - unfold bind. rewrite approach_of_row_result.
    destruct (approach_record_of_row cd_to_datetime ix row) as [c|e]; simpl.
    + rewrite IH. simpl.
      destruct (built_before_raise (map (approach_record_of_row cd_to_datetime ix) rows)) as [cs e]. simpl.
      rewrite length_app, <- !app_assoc. simpl.
      replace (length (approach_objs h) + 1) with (S (length (approach_objs h))) by lia.
      reflexivity.
    + rewrite app_nil_r. destruct h; reflexivity.
Qed.

Lemma load_approaches_run f h :
  load_approaches cd_to_datetime f h =
    match resolve_indices (fields f) with
    | Ok ix => load_approaches_loop cd_to_datetime ix (data f) [] h
    | Raise e => (h, Raise e)
    end.
Proof.
  unfold load_approaches, bind, lift.
  destruct (resolve_indices (fields f)); reflexivity.
Qed.

Lemma approach_record_well_formed ix row :
  is_ok (approach_record_of_row cd_to_datetime ix row) = well_formed_data_row cd_to_datetime ix row.
Proof.
  unfold well_formed_data_row, approach_record_of_row, list_getitem, rbind.
  destruct (row !! designation_index ix); [|reflexivity].
  destruct (row !! time_index ix) as [t|]; [|reflexivity].
  destruct (row !! distance_index ix) as [dist|]; [|reflexivity].
  destruct (row !! velocity_index ix) as [v|]; [|reflexivity].
  unfold CloseApproach_init, rbind.
  destruct (cd_to_datetime t); [|reflexivity].
  destruct (float dist); [|reflexivity].
  destruct (float v); reflexivity.
Qed.


(** X12: constructing a CloseApproach fails either with the exception of
    the time helper, which is consulted first, or, when the helper accepts
    the time, with a [ValueError] because the distance or the velocity does
    not parse; the designation is accepted whatever it is. *)
Theorem CloseApproach_init_raises_iff des t dist v e :
  CloseApproach_init cd_to_datetime des t dist v = Raise e <->
  cd_to_datetime t = Raise e \/
  (is_ok (cd_to_datetime t) = true /\ e = ValueError /\
   (is_ok (float dist) = false \/ is_ok (float v) = false)).
Proof.
  unfold CloseApproach_init, rbind.
  destruct (cd_to_datetime t) as [t'|e']; simpl.
  - destruct (float dist) as [x|e1] eqn:E1; simpl.
    + destruct (float v) as [y|e2] eqn:E2; simpl.
      * split; [discriminate|]. intros [?|(_ & _ & [?|?])]; discriminate.
      * apply float_raises_ValueError in E2 as ->.
        split; [intros [= <-]; auto|]. intros [?|(_ & -> & _)]; [discriminate|reflexivity].
    + apply float_raises_ValueError in E1 as ->.
      split; [intros [= <-]; auto|]. intros [?|(_ & -> & _)]; [discriminate|reflexivity].
  - split; [intros [= <-]; left; reflexivity|].
    intros [[= <-]|(? & _)]; [reflexivity|discriminate].
Qed.


(** X13: whatever the source and whether it returns or raises,
    [load_approaches] only adds CloseApproaches to the store: the objects
    already there are kept as they are and in place, no NearEarthObject is
    created or changed, at most one object is added per data row, and every
    added object has no [neo]. *)
Theorem load_approaches_only_adds_unlinked_approaches f h :
  exists cs,
    fst (load_approaches cd_to_datetime f h)
      = mkHeap (neo_objs h) (approach_objs h ++ cs) /\
    length cs <= length (data f) /\
    Forall (fun c => neo c = None) cs.
Proof.
  rewrite load_approaches_run.
  destruct (resolve_indices (fields f)) as [ix|e].
  - rewrite load_approaches_loop_run. simpl.
    destruct (built_before_raise_from (approach_record_of_row cd_to_datetime ix) (data f)) as [Hfrom Hlen].
    eexists. split; [reflexivity|]. split; [exact Hlen|].
    eapply Forall_impl; [exact Hfrom|]. simpl.
    intros c (row & _ & Hrow).
    apply approach_record_of_row_Ok in Hrow as (des & t & dist & v & _ & _ & _ & _ & Hinit).
    apply CloseApproach_init_Ok in Hinit as (_ & _ & _ & _ & Hn). exact Hn.
  - exists []. simpl. rewrite app_nil_r. destruct h. split; [reflexivity|].
    split; [lia|constructor].
Qed.

(** X14: [load_approaches] returns a collection exactly when the header
    resolves and every data row is well formed under the resolved positions
    (reaches the four positions, with a time the helper accepts and a
    distance and velocity that parse). *)
Theorem load_approaches_returns_iff_all_well_formed f h :
  (exists h' cas, load_approaches cd_to_datetime f h = (h', Ok cas)) <->
  exists ix, resolve_indices (fields f) = Ok ix /\
    Forall (fun row => well_formed_data_row cd_to_datetime ix row = true) (data f).
Proof.
  rewrite load_approaches_run.
  destruct (resolve_indices (fields f)) as [ix|e0];
    [|split; [intros (h' & cas & [=])|intros (ix & [=] & _)]].
  rewrite load_approaches_loop_run.
  pose proof (built_before_raise_cases (map (approach_record_of_row cd_to_datetime ix) (data f))) as Hc.
  destruct (built_before_raise (map (approach_record_of_row cd_to_datetime ix) (data f))) as [cs [e|]]; simpl.
  - split; [intros (h' & cas & [=])|].
    intros (ix' & [= <-] & Hwf). exfalso. destruct Hc as [rest Hc].
    assert (Hin : In (Raise e) (map (approach_record_of_row cd_to_datetime ix) (data f)))
      by (rewrite Hc; apply in_or_app; right; left; reflexivity).
    apply in_map_iff in Hin as (row & Hrow & Hin).
    rewrite Forall_forall in Hwf. apply list_elem_of_In in Hin.
    specialize (Hwf row Hin).
    rewrite <- approach_record_well_formed, Hrow in Hwf. discriminate.
  - split; [|eauto]. intros _. exists ix. split; [reflexivity|].
    apply Forall_forall. intros row Hin. apply list_elem_of_In in Hin.
    apply (in_map (approach_record_of_row cd_to_datetime ix)) in Hin. rewrite Hc in Hin.
    apply in_map_iff in Hin as (c & Hcr & _).
    rewrite <- approach_record_well_formed, <- Hcr. reflexivity.
Qed.


(** X16: a data row too short to reach one of the four positions makes
    [load_approaches] raise [IndexError]: the four values are all read
    before the object is constructed, so this comes before any complaint
    about the time or the numbers, and nothing is added to the store. *)
Theorem load_approaches_short_row_raises_IndexError labels ix (row : list string) rest h :
  resolve_indices labels = Ok ix ->
  length row <= designation_index ix \/ length row <= time_index ix \/
  length row <= distance_index ix \/ length row <= velocity_index ix ->
  load_approaches cd_to_datetime (mkFileData labels (row :: rest)) h
    = (h, Raise IndexError).
Proof.
  intros Hix Hshort. rewrite load_approaches_run. cbn [fields data]. rewrite Hix.
  rewrite load_approaches_loop_run. simpl.
  assert (E : approach_record_of_row cd_to_datetime ix row = Raise IndexError).
  { unfold approach_record_of_row, list_getitem, rbind.
    destruct (row !! designation_index ix) eqn:E1; [|reflexivity].
    destruct (row !! time_index ix) eqn:E2; [|reflexivity].
    destruct (row !! distance_index ix) eqn:E3; [|reflexivity].
    destruct (row !! velocity_index ix) eqn:E4; [|reflexivity].
    apply lookup_lt_Some in E1, E2, E3, E4. lia. }
  rewrite E. simpl. rewrite app_nil_r. destruct h; reflexivity.
Qed.

(** X17: [load_approaches] reads nothing but the header and, in each data
    row, the values at the four resolved positions: two sources whose
    headers resolve and whose rows agree on these values, one by one, give
    the same outcome on the same store, whatever the order of their columns
    and whatever other columns they carry. *)
Theorem load_approaches_reads_only_four_columns f1 f2 ix1 ix2 h :
  resolve_indices (fields f1) = Ok ix1 ->
  resolve_indices (fields f2) = Ok ix2 ->
  map (selected_values ix1) (data f1) = map (selected_values ix2) (data f2) ->
  load_approaches cd_to_datetime f1 h = load_approaches cd_to_datetime f2 h.
Proof.
  intros H1 H2 Heq. rewrite !load_approaches_run, H1, H2, !load_approaches_loop_run.
  assert (E : map (approach_record_of_row cd_to_datetime ix1) (data f1) = map (approach_record_of_row cd_to_datetime ix2) (data f2)).
  { revert Heq. generalize (data f1) (data f2).
    induction l as [|a r1 IH]; intros [|b r2]; simpl; try discriminate; [reflexivity|].
    unfold selected_values at 1 3. intros [= E1 E2 E3 E4 Hr]. rewrite (IH _ Hr). f_equal.
    unfold approach_record_of_row, list_getitem. rewrite E1, E2, E3, E4.
    reflexivity. }
  rewrite E. reflexivity.
Qed.

(** X18: loading a source whose data is made of two parts is loading the
    first part and then, on the store this leaves, the second, under the
    same header: the collections are concatenated, and an exception of
    either part is the exception of the whole. *)
Theorem load_approaches_app labels rows1 rows2 h :
  load_approaches cd_to_datetime (mkFileData labels (rows1 ++ rows2)) h =
    match load_approaches cd_to_datetime (mkFileData labels rows1) h with
    | (h1, Ok cas1) =>
        match load_approaches cd_to_datetime (mkFileData labels rows2) h1 with
        | (h2, Ok cas2) => (h2, Ok (cas1 ++ cas2)%list)
        | (h2, Raise e) => (h2, Raise e)
        end
    | (h1, Raise e) => (h1, Raise e)
    end.
Proof.
  rewrite (load_approaches_run (mkFileData labels (rows1 ++ rows2))).
  rewrite (load_approaches_run (mkFileData labels rows1)). simpl.
  destruct (resolve_indices labels) as [ix|e0] eqn:Hix; [|reflexivity].
  rewrite (load_approaches_loop_run ix (rows1 ++ rows2)), (load_approaches_loop_run ix rows1).
  rewrite map_app, built_before_raise_app.
  destruct (built_before_raise (map (approach_record_of_row cd_to_datetime ix) rows1)) as [cs1 [e1|]]; simpl;
    [reflexivity|].
  rewrite load_approaches_run. cbn [fields data]. rewrite Hix.
  rewrite (load_approaches_loop_run ix rows2). simpl.
  destruct (built_before_raise (map (approach_record_of_row cd_to_datetime ix) rows2)) as [cs2 [e2|]]; simpl;
    rewrite <- app_assoc; [reflexivity|].
  rewrite !length_app, seq_app. reflexivity.
Qed.

(** X19: no CloseApproach that [load_approaches] returns can be serialized
    on the store it leaves: each is unlinked, so [serialize] raises, the
    exception of the time formatter if it has one and [AttributeError]
    otherwise, and the store is unchanged. *)
Theorem loaded_approach_does_not_serialize f h h' cas r :
  load_approaches cd_to_datetime f h = (h', Ok cas) ->
  In r cas ->
  exists c,
    approach_objs h' !! r = Some c /\ neo c = None /\
    CloseApproach_serialize datetime_to_str r h' =
      (h', Raise (match datetime_to_str (time c) with
                  | Ok _ => AttributeError
                  | Raise e => e
                  end)).
Proof.
  rewrite load_approaches_run.
  destruct (resolve_indices (fields f)) as [ix|e0]; [|discriminate].
  rewrite load_approaches_loop_run.
  destruct (built_before_raise_from (approach_record_of_row cd_to_datetime ix) (data f)) as [Hfrom _].
  destruct (built_before_raise (map (approach_record_of_row cd_to_datetime ix) (data f))) as [cs [e|]]; simpl in *;
    [discriminate|].
  intros [= <- <-] Hr. apply in_seq in Hr as [Hlo Hhi].
  destruct (lookup_lt_is_Some_2 cs (r - length (approach_objs h))) as [c Hc]; [lia|].
  assert (Hn : neo c = None).
  { rewrite Forall_forall in Hfrom.
    destruct (Hfrom c) as (row & _ & Hrow); [eapply list_elem_of_lookup_2, Hc|].
    apply approach_record_of_row_Ok in Hrow as (des & t & dist & v & _ & _ & _ & _ & Hinit).
    apply CloseApproach_init_Ok in Hinit as (_ & _ & _ & _ & Hn). exact Hn. }
  assert (Hl : (approach_objs h ++ cs)%list !! r = Some c)
    by (rewrite lookup_app_r by lia; exact Hc).
  exists c. split; [exact Hl|]. split; [exact Hn|].
  unfold CloseApproach_serialize, CloseApproach_time_str, bind, get_approach, lift. simpl.
  rewrite Hl. destruct (datetime_to_str (time c)); [|reflexivity].
  simpl. rewrite ?Hl. simpl. rewrite Hn. reflexivity.
Qed.

End ApproachLoaderRuns.


Lemma load_approaches_short_row_raises_IndexError_witness :
  load_approaches TimeHelper.cd_to_datetime
    (mkFileData ["des"; "cd"; "dist"; "v_rel"] [["433"; "not a date"; "x"]]) empty_heap
  = (empty_heap, Raise IndexError).
Proof.
  apply (load_approaches_short_row_raises_IndexError TimeHelper.cd_to_datetime
           ["des"; "cd"; "dist"; "v_rel"] (mkIndices 0 1 2 3)).
  - reflexivity.
  - simpl. lia.
Defined.

Lemma load_approaches_reads_only_four_columns_witness :
  load_approaches TimeHelper.cd_to_datetime
    (mkFileData ["des"; "cd"; "dist"; "v_rel"]
       [["433"; "1900-Jan-01 12:11"; "0.3"; "5.5"]]) empty_heap
  = load_approaches TimeHelper.cd_to_datetime
      (mkFileData ["v_rel"; "orbit_id"; "dist"; "cd"; "des"; "des"]
         [["5.5"; "7"; "0.3"; "1900-Jan-01 12:11"; "433"; "719"]]) empty_heap.
Proof.
  apply (load_approaches_reads_only_four_columns TimeHelper.cd_to_datetime
           (mkFileData ["des"; "cd"; "dist"; "v_rel"]
              [["433"; "1900-Jan-01 12:11"; "0.3"; "5.5"]])
           (mkFileData ["v_rel"; "orbit_id"; "dist"; "cd"; "des"; "des"]
              [["5.5"; "7"; "0.3"; "1900-Jan-01 12:11"; "433"; "719"]])
           (mkIndices 0 1 2 3) (mkIndices 4 3 2 0)); reflexivity.
Defined.

Lemma loaded_approach_does_not_serialize_witness :
  let f := mkFileData ["des"; "cd"; "dist"; "v_rel"]
             [["433"; "1900-Jan-01 12:11"; "0.3"; "5.5"]] in
  let h' := fst (load_approaches TimeHelper.cd_to_datetime f empty_heap) in
  exists c,
    approach_objs h' !! 0 = Some c /\ neo c = None /\
    CloseApproach_serialize TimeHelper.datetime_to_str 0 h' =
      (h', Raise (match TimeHelper.datetime_to_str (time c) with
                  | Ok _ => AttributeError
                  | Raise e => e
                  end)).
Proof.
  intros f h'.
  apply (loaded_approach_does_not_serialize TimeHelper.cd_to_datetime
           TimeHelper.datetime_to_str f empty_heap h' [0] 0).
  - reflexivity.
  - left. reflexivity.
Defined.

(** ** The two loaders together *)

(** X20: the two loaders do not interfere.  Run one after the other on a
    store, in either order, they leave the same store, and each returns
    what it returns when run alone on the first store: the same references
    or the same exception. *)
Theorem loaders_commute (cd_to_datetime : string -> result datetime) reader f h :
  fst (load_approaches cd_to_datetime f (fst (load_neos reader h)))
    = fst (load_neos reader (fst (load_approaches cd_to_datetime f h))) /\
  snd (load_neos reader (fst (load_approaches cd_to_datetime f h)))
    = snd (load_neos reader h) /\
  snd (load_approaches cd_to_datetime f (fst (load_neos reader h)))
    = snd (load_approaches cd_to_datetime f h).
Proof.
  unfold load_neos. rewrite !load_approaches_run.
  destruct (resolve_indices (fields f)) as [ix|e].
  - rewrite !load_approaches_loop_run, !load_neos_loop_run. simpl.
    repeat split; reflexivity.
  - rewrite !load_neos_loop_run. simpl. repeat split; reflexivity.
Qed.
